(** * three-of-mankind: the gameplay state of [game/gamestate.py]

    A shallow embedding of [GameState]: the level decoder [load_level],
    the per-frame [on_update], the key handlers and the camera
    [update_screen].

    Conventions.
    - Coordinates are Python numbers (ints mixed with floats); they are
      modelled as rationals [Q], so float rounding is abstracted away.
      [int(x)] is truncation towards zero, [py_int].
    - [view_left] and [view_bottom] are Python ints whenever a method
      returns (they start at [0] and [update_screen] ends with [int(...)]);
      they are [Z] in the state.
    - Exceptions are explicit: a method that can raise returns an
      [Outcome], which carries the state reached at the raise.
    - What lives outside [gamestate.py] (the constants, the tile catalog,
      [Player], the helpers of [utils], the arcade library, the image
      files) is gathered in one record [Env] that every definition takes. *)

From Stdlib Require Import ZArith QArith Qabs List String Ascii Bool Lia Lqa Permutation.
Import ListNotations.
Open Scope Z_scope.

(** ** Numbers *)

(** Python's [int(x)] on a number: truncation towards zero. *)
Definition py_int (q : Q) : Z := Z.quot (Qnum q) (Z.pos (Qden q)).

Definition Qltb (x y : Q) : bool := negb (Qle_bool y x).

(** Python's [range(start, stop, step)]. *)
Definition py_range (start stop step : Z) : list Z :=
  if 0 <? step then
    map (fun k => start + step * Z.of_nat k)
        (seq 0 (Z.to_nat ((stop - start + step - 1) / step)))
  else if step <? 0 then
    map (fun k => start + step * Z.of_nat k)
        (seq 0 (Z.to_nat ((start - stop - step - 1) / (- step))))
  else [].

(** ** Strings, as the tile names use them *)

Definition startswith (s p : string) : bool := String.prefix p s.

Fixpoint str_rev_onto (s acc : string) : string :=
  match s with
  | EmptyString => acc
  | String c r => str_rev_onto r (String c acc)
  end.

Definition str_rev (s : string) : string := str_rev_onto s EmptyString.

Definition endswith (s p : string) : bool :=
  String.prefix (str_rev p) (str_rev s).

Definition startswith_any (s : string) (ps : list string) : bool :=
  existsb (startswith s) ps.

Definition endswith_any (s : string) (ps : list string) : bool :=
  existsb (endswith s) ps.

Definition is_underscore (c : ascii) : bool := Ascii.eqb c "_"%char.

Fixpoint has_underscore (s : string) : bool :=
  match s with
  | EmptyString => false
  | String c r => is_underscore c || has_underscore r
  end.

(** [s.rsplit("_", 1)[-1]]: what follows the last underscore, the whole
    string when there is none. *)
Fixpoint rsplit_last (s : string) : string :=
  match s with
  | EmptyString => EmptyString
  | String c r =>
      if has_underscore r then rsplit_last r
      else if is_underscore c then r
      else s
  end.

(** ** Data *)

(** The player's colour. [str_color] is a Python string; the only values
    this file ever stores in it are the four literals below. *)
Inductive Color := white | red | green | blue.

Definition Color_eqb (a b : Color) : bool :=
  match a, b with
  | white, white | red, red | green, green | blue, blue => true
  | _, _ => false
  end.

Definition color_name (c : Color) : string :=
  match c with
  | white => "white"
  | red => "red"
  | green => "green"
  | blue => "blue"
  end%string.

(** An entry of the tile catalog. The texture is an opaque handle. *)
Record Tile := { tile_name : string; tile_texture : nat }.

(** A placed tile: [Sprite.from_texture(tile.texture)] with its [left]
    and [bottom] set. *)
Record Sprite := { sp_texture : nat; sp_left : Q; sp_bottom : Q }.

(** The fields of [Player] that [gamestate.py] reads or writes. The box
    is kept as [left], [bottom] and its size, so that
    [right = left + width], [top = bottom + height] and the centre is the
    middle of the box. *)
Record Player := {
  p_left : Q;
  p_bottom : Q;
  p_width : Q;
  p_height : Q;
  change_x : Q;
  change_y : Q;
  str_color : Color;
  direction : Q;
  jump_count : Z;
  dash_count : Z;
  is_jumping : bool;
  jump_force : Q;
  movement_x : Q;
  movement_control : Q
}.

(** What the collision queries see of the player: its bounding box. *)
Record Box := { b_left : Q; b_bottom : Q; b_width : Q; b_height : Q }.

Definition box (p : Player) : Box :=
  {| b_left := p_left p; b_bottom := p_bottom p;
     b_width := p_width p; b_height := p_height p |}.

Definition p_right (p : Player) : Q := (p_left p + p_width p)%Q.
Definition p_top (p : Player) : Q := (p_bottom p + p_height p)%Q.
Definition center_x (p : Player) : Q := (p_left p + p_width p / 2)%Q.
Definition center_y (p : Player) : Q := (p_bottom p + p_height p / 2)%Q.

(** The dict [colored_geometry]. Both places that build it give it the
    same four keys, and no key is ever added or removed. *)
Record Colored := {
  cg_red : list Sprite;
  cg_green : list Sprite;
  cg_blue : list Sprite;
  cg_white : list Sprite
}.

Definition cg_empty : Colored :=
  {| cg_red := []; cg_green := []; cg_blue := []; cg_white := [] |}.

(** [colored_geometry[color]] for one of the colour literals. *)
Definition cg_get (g : Colored) (c : Color) : list Sprite :=
  match c with
  | red => cg_red g
  | green => cg_green g
  | blue => cg_blue g
  | white => cg_white g
  end.

(** [colored_geometry[key].append(sp)] for an arbitrary string key:
    [None] is the [KeyError]. *)
Definition cg_append (g : Colored) (key : string) (sp : Sprite) : option Colored :=
  if String.eqb key "red" then
    Some {| cg_red := cg_red g ++ [sp]; cg_green := cg_green g;
            cg_blue := cg_blue g; cg_white := cg_white g |}
  else if String.eqb key "green" then
    Some {| cg_red := cg_red g; cg_green := cg_green g ++ [sp];
            cg_blue := cg_blue g; cg_white := cg_white g |}
  else if String.eqb key "blue" then
    Some {| cg_red := cg_red g; cg_green := cg_green g;
            cg_blue := cg_blue g ++ [sp]; cg_white := cg_white g |}
  else if String.eqb key "white" then
    Some {| cg_red := cg_red g; cg_green := cg_green g;
            cg_blue := cg_blue g; cg_white := cg_white g ++ [sp] |}
  else None.

(** A dash effect, as handed to [dash_emitters]. *)
Record Emitter := { em_old : Q * Q; em_new : Q * Q }.

(** The viewport last handed to [arcade.set_viewport]. *)
Record Viewport := { vp_left : Z; vp_right : Z; vp_bottom : Z; vp_top : Z }.

Record GameState := {
  view_left : Z;
  view_bottom : Z;
  game_width : Z;                 (* self.game.width *)
  game_height : Z;                (* self.game.height *)
  level : Z;
  level_geometry : list Sprite;
  level_objects : list Sprite;
  colored_geometry : Colored;
  danger : list Sprite;
  saves : list Sprite;
  start : option Sprite;          (* None is Python's None *)
  end_ : option Sprite;
  player : Player;
  engine_platforms : list Sprite; (* the list the engine was built with *)
  dash_emitters : list Emitter;
  viewport : option Viewport
}.

(** An opened level image: its size and [image.load()]. A pixel access
    that raises (an index out of range, a pixel that is not a 4-tuple)
    is [None]. *)
Record Image := {
  img_w : Z;
  img_h : Z;
  img_pixels : Z -> Z -> option (Z * Z * Z * Z)
}.

(** Everything [gamestate.py] imports or calls. The collision queries
    are functions of the player's box and of the sprites they are given. *)
Record Env := {
  (* constants.py *)
  AIR_CONTROL : Q;
  GROUND_CONTROL : Q;
  DASH_COUNT : Z;
  DASH_DISTANCE : Q;
  JUMP_COUNT : Z;
  JUMP_FORCE : Q;
  JUMP_VELOCITY_BONUS : Q;
  LEFT : Q;
  RIGHT : Q;
  PLAYER_MOVEMENT_SPEED : Q;
  TEXTURE_SIZE : Q;
  VIEWPORT_MARGIN : Q;
  (* Image.open on levels/level_<id>.png; None is the OSError *)
  open_image : Z -> option Image;
  (* tile_image.tiles[signature]; None is the KeyError *)
  tiles : string -> option Tile;
  (* arcade: Sprite.collides_with_sprite, Sprite.collides_with_list *)
  collides_with_sprite : Box -> Sprite -> bool;
  collides_with_list : Box -> list Sprite -> list Sprite;
  (* utils.is_touching, utils.sweep_trace, utils.dash_emitter_factory *)
  is_touching : Box -> list Sprite -> bool;
  sweep_trace : Box -> Q -> Q -> list Sprite -> bool;
  dash_emitter_factory : Player -> Q * Q -> Q * Q -> list Emitter;
  (* arcade.PhysicsEnginePlatformer: can_jump() and update() *)
  can_jump : Box -> list Sprite -> bool;
  engine_update : Player -> list Sprite -> Player;
  (* Player.update(), SpriteList.update() *)
  player_update : Player -> Player;
  objects_update : list Sprite -> list Sprite;
  (* the order in which Python iterates the set of colour names *)
  set_iter : list Color -> list Color
}.

(** ** Exceptions and outcomes *)

Inductive Exn :=
| RuntimeError (msg : string)
| KeyError (key : string)
| PixelError (x y : Z)
| TypeError
| AttributeError.

Inductive Outcome (A : Type) :=
| Returned (a : A) (s : GameState)
| Raised (e : Exn) (s : GameState).
Arguments Returned {A} a s.
Arguments Raised {A} e s.

Definition M (A : Type) : Type := GameState -> Outcome A.

Definition ret {A} (a : A) : M A := fun s => Returned a s.

Definition bind {A B} (m : M A) (k : A -> M B) : M B :=
  fun s => match m s with
           | Returned a s' => k a s'
           | Raised e s' => Raised e s'
           end.

Definition raise {A} (e : Exn) : M A := fun s => Raised e s.
Definition get : M GameState := fun s => Returned s s.
Definition modify (f : GameState -> GameState) : M unit :=
  fun s => Returned tt (f s).

Notation "x <- m ;; k" := (bind m (fun x => k))
  (at level 61, m at next level, right associativity).
Notation "m ;;; k" := (bind m (fun _ => k))
  (at level 61, right associativity).

Definition state_of {A} (o : Outcome A) : GameState :=
  match o with Returned _ s => s | Raised _ s => s end.

Definition raised {A} (o : Outcome A) : option Exn :=
  match o with Returned _ _ => None | Raised e _ => Some e end.

(** ** Field updates *)

Definition with_player (f : Player -> Player) (s : GameState) : GameState :=
  {| view_left := view_left s; view_bottom := view_bottom s;
     game_width := game_width s; game_height := game_height s;
     level := level s; level_geometry := level_geometry s;
     level_objects := level_objects s; colored_geometry := colored_geometry s;
     danger := danger s; saves := saves s; start := start s; end_ := end_ s;
     player := f (player s); engine_platforms := engine_platforms s;
     dash_emitters := dash_emitters s; viewport := viewport s |}.

Definition set_level (n : Z) (s : GameState) : GameState :=
  {| view_left := view_left s; view_bottom := view_bottom s;
     game_width := game_width s; game_height := game_height s;
     level := n; level_geometry := level_geometry s;
     level_objects := level_objects s; colored_geometry := colored_geometry s;
     danger := danger s; saves := saves s; start := start s; end_ := end_ s;
     player := player s; engine_platforms := engine_platforms s;
     dash_emitters := dash_emitters s; viewport := viewport s |}.

(** The seven fields that hold the decoded level. *)
Record LevelData := {
  ld_geometry : list Sprite;
  ld_objects : list Sprite;
  ld_colored : Colored;
  ld_danger : list Sprite;
  ld_saves : list Sprite;
  ld_start : option Sprite;
  ld_end : option Sprite
}.

Definition level_data (s : GameState) : LevelData :=
  {| ld_geometry := level_geometry s; ld_objects := level_objects s;
     ld_colored := colored_geometry s; ld_danger := danger s;
     ld_saves := saves s; ld_start := start s; ld_end := end_ s |}.

Definition set_level_data (d : LevelData) (s : GameState) : GameState :=
  {| view_left := view_left s; view_bottom := view_bottom s;
     game_width := game_width s; game_height := game_height s;
     level := level s; level_geometry := ld_geometry d;
     level_objects := ld_objects d; colored_geometry := ld_colored d;
     danger := ld_danger d; saves := ld_saves d; start := ld_start d;
     end_ := ld_end d;
     player := player s; engine_platforms := engine_platforms s;
     dash_emitters := dash_emitters s; viewport := viewport s |}.

Definition with_level_data (f : LevelData -> LevelData) (s : GameState) : GameState :=
  set_level_data (f (level_data s)) s.

Definition set_objects (l : list Sprite) (s : GameState) : GameState :=
  with_level_data (fun d =>
    {| ld_geometry := ld_geometry d; ld_objects := l;
       ld_colored := ld_colored d; ld_danger := ld_danger d;
       ld_saves := ld_saves d; ld_start := ld_start d; ld_end := ld_end d |}) s.

Definition set_start (r : option Sprite) (s : GameState) : GameState :=
  with_level_data (fun d =>
    {| ld_geometry := ld_geometry d; ld_objects := ld_objects d;
       ld_colored := ld_colored d; ld_danger := ld_danger d;
       ld_saves := ld_saves d; ld_start := r; ld_end := ld_end d |}) s.

Definition set_end (r : option Sprite) (s : GameState) : GameState :=
  with_level_data (fun d =>
    {| ld_geometry := ld_geometry d; ld_objects := ld_objects d;
       ld_colored := ld_colored d; ld_danger := ld_danger d;
       ld_saves := ld_saves d; ld_start := ld_start d; ld_end := r |}) s.

Definition add_geometry (sp : Sprite) (s : GameState) : GameState :=
  with_level_data (fun d =>
    {| ld_geometry := ld_geometry d ++ [sp]; ld_objects := ld_objects d;
       ld_colored := ld_colored d; ld_danger := ld_danger d;
       ld_saves := ld_saves d; ld_start := ld_start d; ld_end := ld_end d |}) s.

Definition add_object (sp : Sprite) (s : GameState) : GameState :=
  set_objects (level_objects s ++ [sp]) s.

Definition set_colored (g : Colored) (s : GameState) : GameState :=
  with_level_data (fun d =>
    {| ld_geometry := ld_geometry d; ld_objects := ld_objects d;
       ld_colored := g; ld_danger := ld_danger d;
       ld_saves := ld_saves d; ld_start := ld_start d; ld_end := ld_end d |}) s.

Definition add_save (sp : Sprite) (s : GameState) : GameState :=
  with_level_data (fun d =>
    {| ld_geometry := ld_geometry d; ld_objects := ld_objects d;
       ld_colored := ld_colored d; ld_danger := ld_danger d;
       ld_saves := ld_saves d ++ [sp]; ld_start := ld_start d;
       ld_end := ld_end d |}) s.

Definition add_danger (sp : Sprite) (s : GameState) : GameState :=
  with_level_data (fun d =>
    {| ld_geometry := ld_geometry d; ld_objects := ld_objects d;
       ld_colored := ld_colored d; ld_danger := ld_danger d ++ [sp];
       ld_saves := ld_saves d; ld_start := ld_start d; ld_end := ld_end d |}) s.

(** Lines 74-84 of [load_level]: every level field starts afresh. *)
Definition empty_level : LevelData :=
  {| ld_geometry := []; ld_objects := []; ld_colored := cg_empty;
     ld_danger := []; ld_saves := []; ld_start := None; ld_end := None |}.

Definition set_view (vl vb : Z) (vp : option Viewport) (s : GameState) : GameState :=
  {| view_left := vl; view_bottom := vb;
     game_width := game_width s; game_height := game_height s;
     level := level s; level_geometry := level_geometry s;
     level_objects := level_objects s; colored_geometry := colored_geometry s;
     danger := danger s; saves := saves s; start := start s; end_ := end_ s;
     player := player s; engine_platforms := engine_platforms s;
     dash_emitters := dash_emitters s; viewport := vp |}.

Definition add_emitters (l : list Emitter) (s : GameState) : GameState :=
  {| view_left := view_left s; view_bottom := view_bottom s;
     game_width := game_width s; game_height := game_height s;
     level := level s; level_geometry := level_geometry s;
     level_objects := level_objects s; colored_geometry := colored_geometry s;
     danger := danger s; saves := saves s; start := start s; end_ := end_ s;
     player := player s; engine_platforms := engine_platforms s;
     dash_emitters := dash_emitters s ++ l; viewport := viewport s |}.

(** Player fields. *)
Definition set_position (l b : Q) (p : Player) : Player :=
  {| p_left := l; p_bottom := b; p_width := p_width p; p_height := p_height p;
     change_x := change_x p; change_y := change_y p; str_color := str_color p;
     direction := direction p; jump_count := jump_count p;
     dash_count := dash_count p; is_jumping := is_jumping p;
     jump_force := jump_force p; movement_x := movement_x p;
     movement_control := movement_control p |}.

Definition set_left (l : Q) (p : Player) : Player := set_position l (p_bottom p) p.

Definition set_counts (j d : Z) (p : Player) : Player :=
  {| p_left := p_left p; p_bottom := p_bottom p; p_width := p_width p;
     p_height := p_height p;
     change_x := change_x p; change_y := change_y p; str_color := str_color p;
     direction := direction p; jump_count := j;
     dash_count := d; is_jumping := is_jumping p;
     jump_force := jump_force p; movement_x := movement_x p;
     movement_control := movement_control p |}.

Definition set_movement_control (c : Q) (p : Player) : Player :=
  {| p_left := p_left p; p_bottom := p_bottom p; p_width := p_width p;
     p_height := p_height p;
     change_x := change_x p; change_y := change_y p; str_color := str_color p;
     direction := direction p; jump_count := jump_count p;
     dash_count := dash_count p; is_jumping := is_jumping p;
     jump_force := jump_force p; movement_x := movement_x p;
     movement_control := c |}.

Definition set_jump (cy : Q) (j : bool) (f : Q) (p : Player) : Player :=
  {| p_left := p_left p; p_bottom := p_bottom p; p_width := p_width p;
     p_height := p_height p;
     change_x := change_x p; change_y := cy; str_color := str_color p;
     direction := direction p; jump_count := jump_count p;
     dash_count := dash_count p; is_jumping := j;
     jump_force := f; movement_x := movement_x p;
     movement_control := movement_control p |}.

Definition set_is_jumping (j : bool) (p : Player) : Player :=
  set_jump (change_y p) j (jump_force p) p.

Definition set_movement (m d : Q) (p : Player) : Player :=
  {| p_left := p_left p; p_bottom := p_bottom p; p_width := p_width p;
     p_height := p_height p;
     change_x := change_x p; change_y := change_y p; str_color := str_color p;
     direction := d; jump_count := jump_count p;
     dash_count := dash_count p; is_jumping := is_jumping p;
     jump_force := jump_force p; movement_x := m;
     movement_control := movement_control p |}.

(** Modelled from the spec: [Player.set_color], which is in [player.py]
    and not among the sources. The spec's [setColor(name)] checks that
    the name is one of the four colours and updates [colorState] and the
    active visual; the visual is not part of this state. *)
Definition set_color (c : Color) (p : Player) : Player :=
  {| p_left := p_left p; p_bottom := p_bottom p; p_width := p_width p;
     p_height := p_height p;
     change_x := change_x p; change_y := change_y p; str_color := c;
     direction := direction p; jump_count := jump_count p;
     dash_count := dash_count p; is_jumping := is_jumping p;
     jump_force := jump_force p; movement_x := movement_x p;
     movement_control := movement_control p |}.

(** ** The level decoder *)

Definition to_int (r g b a : Z) : Z :=
  Z.shiftl r 24 + Z.shiftl g 16 + Z.shiftl b 8 + a.

Definition color_map : list (Z * ascii) :=
  [ (0xFFFFFFFF, "W"); (0xFF0000FF, "R"); (0x00FF00FF, "G");
    (0x0000FFFF, "B"); (0x00FFFFFF, "L"); (0xFF00FFFF, "P");
    (0x000000FF, "D"); (0x00000000, "E") ]%char.

(** [color_map.get(key, "E")]. *)
Fixpoint color_map_get (m : list (Z * ascii)) (key : Z) : ascii :=
  match m with
  | [] => "E"%char
  | (k, c) :: m' => if k =? key then c else color_map_get m' key
  end.

(** The pixels [gen_colors] visits for the block whose bottom-left pixel
    is [(x, y)], in its order. *)
Definition block_pixels (x y : Z) : list (Z * Z) :=
  flat_map (fun yi => map (fun xi => (xi, yi)) (py_range x (x + 3) 1))
           (py_range (y - 2) (y + 1) 1).

(** ["".join(gen_colors())]; the first pixel access that raises ends it. *)
Fixpoint join_colors (img : Image) (ps : list (Z * Z)) : Exn + string :=
  match ps with
  | [] => inr EmptyString
  | (xi, yi) :: ps' =>
      match img_pixels img xi yi with
      | None => inl (PixelError xi yi)
      | Some (r, g, b, a) =>
          match join_colors img ps' with
          | inl e => inl e
          | inr rest => inr (String (color_map_get color_map (to_int r g b a)) rest)
          end
      end
  end.

Definition signature (img : Image) (x y : Z) : Exn + string :=
  join_colors img (block_pixels x y).

(** What [move_to_start] does to the state when [start] is [r]. *)
Definition respawn (r : Sprite) (s : GameState) : GameState :=
  with_player (set_position (sp_left r) (sp_bottom r)) s.

(** [move_to_start]. *)
Definition move_to_start : M unit :=
  fun s => match start s with
           | None => Raised AttributeError s
           | Some st => Returned tt (respawn st s)
           end.

(** The [else] branch of lines 120-144: one catalog hit is placed and
    classified by its name. *)
Definition place (tile : Tile) (left bottom : Q) : M unit :=
  let sprite := {| sp_texture := tile_texture tile;
                   sp_left := left; sp_bottom := bottom |} in
  let name := tile_name tile in
  (if startswith_any name ["block"; "danger"]%string
   then modify (add_geometry sprite)
   else modify (add_object sprite)) ;;;
  (if endswith_any name ["white"; "red"; "green"; "blue"]%string
   then fun s =>
          match cg_append (colored_geometry s) (rsplit_last name) sprite with
          | Some g => Returned tt (set_colored g s)
          | None => Raised (KeyError (rsplit_last name)) s
          end
   else ret tt) ;;;
  (if startswith name "save" then modify (add_save sprite) else ret tt) ;;;
  (if startswith name "danger" then modify (add_danger sprite) else ret tt) ;;;
  (if startswith name "level"
   then if endswith name "start"
        then modify (set_start (Some sprite))
        else modify (set_end (Some sprite))
   else ret tt).

Section WithEnv.

Variable E : Env.

(** The inner loop, [for x in range(0, w, 3)], with the local [left]. *)
Fixpoint scan_row (img : Image) (y : Z) (xs : list Z) (left bottom : Q) : M unit :=
  match xs with
  | [] => ret tt
  | x :: xs' =>
      match signature img x y with
      | inl e => raise e
      | inr colors =>
          match tiles E colors with
          | None => ret tt
          | Some tile => place tile left bottom
          end ;;;
          scan_row img y xs' (left + TEXTURE_SIZE E)%Q bottom
      end
  end.

(** The outer loop, [for y in range(h - 1, -1, -3)], with the local
    [bottom]. *)
Fixpoint scan_rows (img : Image) (ys xs : list Z) (bottom : Q) : M unit :=
  match ys with
  | [] => ret tt
  | y :: ys' =>
      scan_row img y xs 0%Q bottom ;;;
      scan_rows img ys' xs (bottom + TEXTURE_SIZE E)%Q
  end.

Definition scan (img : Image) : M unit :=
  scan_rows img (py_range (img_h img - 1) (-1) (-3)) (py_range 0 (img_w img) 3) 0%Q.

Definition load_level (level_id : Z) : M bool :=
  match open_image E level_id with
  | None => ret false
  | Some image =>
      modify (set_level_data empty_level) ;;;
      scan image ;;;
      s <- get ;;
      match start s, end_ s with
      | None, _ => raise (RuntimeError "Start is not set.")
      | Some _, None => raise (RuntimeError "End is not set.")
      | Some _, Some _ => move_to_start ;;; ret true
      end
  end.

(** ** The camera *)

Definition scroll_left (p : Player) (v : Q) : Q :=
  let left_boundary := (v + VIEWPORT_MARGIN E)%Q in
  if Qltb (p_left p) left_boundary then (v - (left_boundary - p_left p))%Q else v.

Definition scroll_right (width : Z) (p : Player) (v : Q) : Q :=
  let right_boundary := (v + inject_Z width - VIEWPORT_MARGIN E)%Q in
  if Qltb right_boundary (p_right p) then (v + (p_right p - right_boundary))%Q else v.

Definition scroll_up (height : Z) (p : Player) (v : Q) : Q :=
  let top_boundary := (v + inject_Z height - VIEWPORT_MARGIN E)%Q in
  if Qltb top_boundary (p_top p) then (v + (p_top p - top_boundary))%Q else v.

Definition scroll_down (p : Player) (v : Q) : Q :=
  let bottom_boundary := (v + VIEWPORT_MARGIN E)%Q in
  if Qltb (p_bottom p) bottom_boundary then (v - (bottom_boundary - p_bottom p))%Q else v.

(** How far the player is past the margin of each edge of the view, as
    [update_screen] finds the view at its start. *)
Definition left_overshoot (s : GameState) : Q :=
  (inject_Z (view_left s) + VIEWPORT_MARGIN E - p_left (player s))%Q.

Definition right_overshoot (s : GameState) : Q :=
  (p_right (player s)
   - (inject_Z (view_left s) + inject_Z (game_width s) - VIEWPORT_MARGIN E))%Q.

Definition top_overshoot (s : GameState) : Q :=
  (p_top (player s)
   - (inject_Z (view_bottom s) + inject_Z (game_height s) - VIEWPORT_MARGIN E))%Q.

Definition bottom_overshoot (s : GameState) : Q :=
  (inject_Z (view_bottom s) + VIEWPORT_MARGIN E - p_bottom (player s))%Q.

(** The flag [changed] of [update_screen]. *)
Definition screen_changed (s : GameState) : bool :=
  let p := player s in
  let vl := inject_Z (view_left s) in
  let vb := inject_Z (view_bottom s) in
  Qltb (p_left p) (vl + VIEWPORT_MARGIN E)%Q
  || Qltb (scroll_left p vl + inject_Z (game_width s) - VIEWPORT_MARGIN E)%Q (p_right p)
  || Qltb (vb + inject_Z (game_height s) - VIEWPORT_MARGIN E)%Q (p_top p)
  || Qltb (p_bottom p) (scroll_up (game_height s) p vb + VIEWPORT_MARGIN E)%Q.

Definition update_screen (s : GameState) : GameState :=
  let p := player s in
  let vl := py_int (scroll_right (game_width s) p (scroll_left p (inject_Z (view_left s)))) in
  let vb := py_int (scroll_down p (scroll_up (game_height s) p (inject_Z (view_bottom s)))) in
  set_view vl vb
    (if screen_changed s
     then Some {| vp_left := vl; vp_right := game_width s + vl;
                  vp_bottom := vb; vp_top := game_height s + vb |}
     else viewport s)
    s.

(** ** The per-frame update *)

Definition grounded (s : GameState) : bool :=
  can_jump E (box (player s)) (engine_platforms s).

(** Lines 165-168. *)
Definition update_control : M unit :=
  modify (fun s =>
    with_player (set_movement_control
                   (if grounded s then GROUND_CONTROL E else AIR_CONTROL E)) s).

(** Lines 170-175. The two log lines leave no trace in the state. *)
Definition update_end : M unit :=
  s <- get ;;
  match end_ s with
  | None => raise TypeError
  | Some e =>
      if collides_with_sprite E (box (player s)) e then
        modify (set_level (level s + 1)) ;;;
        _ <- load_level (level s + 1) ;;
        ret tt
      else ret tt
  end.

(** Lines 177-180: [saves.pop()] is the last of the colliding saves. *)
Definition claim_checkpoint (s : GameState) : GameState :=
  match rev (collides_with_list E (box (player s)) (saves s)) with
  | [] => s
  | sv :: _ => set_start (Some sv) s
  end.

Definition update_saves : M unit := modify claim_checkpoint.

(** Lines 182-183. *)
Definition update_danger : M unit :=
  s <- get ;;
  if is_touching E (box (player s)) (danger s) then move_to_start else ret tt.

(** [colors.discard(c)] on the set of the three colour names. *)
Definition discard (c : Color) (l : list Color) : list Color :=
  filter (fun x => negb (Color_eqb x c)) l.

(** The test of line 188 for the colour [c]. *)
Definition touches (s : GameState) (c : Color) : bool :=
  is_touching E (box (player s)) (cg_get (colored_geometry s) c).

(** Lines 187-189, over the colours in the order of iteration. *)
Fixpoint update_colors (cs : list Color) : M unit :=
  match cs with
  | [] => ret tt
  | c :: cs' =>
      (s <- get ;; if touches s c then move_to_start else ret tt) ;;;
      update_colors cs'
  end.

Definition mismatched (s : GameState) : list Color :=
  set_iter E (discard (str_color (player s)) [red; green; blue]).

(** Any contact that sends the player back: a hazard, or a colour that
    is not the player's. *)
Definition contact (s : GameState) : bool :=
  is_touching E (box (player s)) (danger s)
  || existsb (touches s) (mismatched s).

(** Lines 165-189: the gameplay rules of a frame. *)
Definition update_rules : M unit :=
  update_control ;;;
  update_end ;;;
  update_saves ;;;
  update_danger ;;;
  (s <- get ;; update_colors (mismatched s)).

(** Lines 191-195: the player's own update, the physics step, the
    decoration and the camera. *)
Definition update_motion : M unit :=
  modify (with_player (player_update E)) ;;;
  modify (fun s => with_player (fun p => engine_update E p (engine_platforms s)) s) ;;;
  modify (fun s => set_objects (objects_update E (level_objects s)) s) ;;;
  modify update_screen.

Definition on_update : M unit := update_rules ;;; update_motion.

(** [n] frames in a row with no input in between; the first raise ends
    the run. *)
Fixpoint frames (n : nat) : M unit :=
  match n with
  | O => ret tt
  | S n' => on_update ;;; frames n'
  end.

End WithEnv.

(** ** Key events *)

(** The key codes of [arcade.key] that the handlers test. *)
Module key.
Definition SPACE : Z := 32.
Definition A : Z := 97.
Definition B : Z := 98.
Definition D : Z := 100.
Definition E : Z := 101.
Definition F : Z := 102.
Definition G : Z := 103.
Definition R : Z := 114.
Definition LEFT : Z := 65361.
Definition RIGHT : Z := 65363.
Definition LSHIFT : Z := 65505.
End key.

(** The dict [colors] of [on_key_press]. *)
Definition key_colors : list (Z * Color) :=
  [ (key.F, white); (key.R, red); (key.G, green); (key.B, blue) ].

Fixpoint key_colors_get (m : list (Z * Color)) (k : Z) : option Color :=
  match m with
  | [] => None
  | (k', c) :: m' => if k' =? k then Some c else key_colors_get m' k
  end.

(** The tuple [all_colors]. *)
Definition all_colors : list Color := [white; red; green; blue].

(** [t.index(c)], [None] being the [ValueError]. *)
Fixpoint index_of (c : Color) (l : list Color) : option nat :=
  match l with
  | [] => None
  | x :: l' => if Color_eqb x c then Some O
               else option_map S (index_of c l')
  end.

(** [all_colors[(all_colors.index(c) + 1) % len(all_colors)]]. No
    exception can come out of it: every [Color] is in [all_colors], and
    the index is taken modulo the length. *)
Definition next_color (c : Color) : Color :=
  match index_of c all_colors with
  | None => c
  | Some i => nth ((i + 1) mod List.length all_colors)%nat all_colors c
  end.

Section Keys.

Variable E : Env.

(** Lines 212-224. *)
Definition press_color (k : Z) (s : GameState) : GameState :=
  let s1 := if k =? key.E
            then with_player (fun p => set_color (next_color (str_color p)) p) s
            else s in
  match key_colors_get key_colors k with
  | Some c => with_player (set_color c) s1
  | None => s1
  end.

(** Lines 226-229, the step marked [# Pre]. *)
Definition press_pre (s : GameState) : GameState :=
  if grounded E s then with_player (set_counts 0 0) s else s.

(** Lines 243-252. *)
Definition do_dash (s : GameState) : GameState :=
  let step := with_player (fun p =>
                set_left (p_left p + DASH_DISTANCE E * direction p)%Q p) in
  let s1 := step s in
  let old_pos := (center_x (player s1), center_y (player s1)) in
  let s2 := step s1 in
  let new_pos := (center_x (player s2), center_y (player s2)) in
  add_emitters (dash_emitter_factory E (player s2) old_pos new_pos) s2.

(** Lines 231-252. *)
Definition press_dash (k : Z) (s : GameState) : GameState :=
  if k =? key.LSHIFT then
    if negb (sweep_trace E (box (player s)) (DASH_DISTANCE E) 0%Q (level_geometry s)) then
      if negb (grounded E s) then
        if dash_count (player s) <? DASH_COUNT E then
          do_dash (with_player (fun p => set_counts (jump_count p) (dash_count p + 1) p) s)
        else s
      else do_dash s
    else s
  else s.

(** Lines 254-262. [velocity[0]] is [change_x]. *)
Definition press_jump (k : Z) (s : GameState) : GameState :=
  if k =? key.SPACE then
    let s1 := with_player (fun p => set_counts (jump_count p + 1) (dash_count p) p) s in
    if jump_count (player s1) <=? JUMP_COUNT E then
      with_player (fun p =>
        set_jump 0%Q true
          (JUMP_FORCE E + Qabs (change_x p) * JUMP_VELOCITY_BONUS E)%Q p) s1
    else s1
  else s.

(** Lines 264-270. *)
Definition press_move (k : Z) (s : GameState) : GameState :=
  let s1 := if (k =? key.LEFT) || (k =? key.A)
            then with_player (set_movement (- PLAYER_MOVEMENT_SPEED E)%Q (LEFT E)) s
            else s in
  if (k =? key.RIGHT) || (k =? key.D)
  then with_player (set_movement (PLAYER_MOVEMENT_SPEED E) (RIGHT E)) s1
  else s1.

Definition on_key_press (k : Z) (s : GameState) : GameState :=
  press_move k (press_jump k (press_dash k (press_pre (press_color k s)))).

Definition on_key_release (k : Z) (s : GameState) : GameState :=
  let s1 := if k =? key.SPACE then with_player (set_is_jumping false) s else s in
  if (k =? key.LEFT) || (k =? key.A) then
    if Qltb (movement_x (player s1)) 0%Q
    then with_player (fun p => set_movement 0%Q (direction p) p) s1 else s1
  else if (k =? key.RIGHT) || (k =? key.D) then
    if Qltb 0%Q (movement_x (player s1))
    then with_player (fun p => set_movement 0%Q (direction p) p) s1 else s1
  else s1.

(** A run of key presses, all delivered between two frames. *)
Definition presses (ks : list Z) (s : GameState) : GameState :=
  fold_left (fun s k => on_key_press k s) ks s.

End Keys.

(** ** Construction and the window *)

(** [player.center_x = cx; player.center_y = cy]. *)
Definition set_center (cx cy : Q) (p : Player) : Player :=
  set_position (cx - p_width p / 2)%Q (cy - p_height p / 2)%Q p.

Definition set_engine (l : list Sprite) (s : GameState) : GameState :=
  {| view_left := view_left s; view_bottom := view_bottom s;
     game_width := game_width s; game_height := game_height s;
     level := level s; level_geometry := level_geometry s;
     level_objects := level_objects s; colored_geometry := colored_geometry s;
     danger := danger s; saves := saves s; start := start s; end_ := end_ s;
     player := player s; engine_platforms := l;
     dash_emitters := dash_emitters s; viewport := viewport s |}.

(** Lines 33-58 of [__init__]: the session before its first level is
    decoded, in a window of the given size. [fresh] is the object that
    [Player(scale=0.99)] and the four [append_texture] calls build.
    [danger], [saves], [start] and [end] are not assigned yet at this
    point; they are shown empty. *)
Definition blank (width height : Z) (fresh : Player) : GameState :=
  {| view_left := 0; view_bottom := 0;
     game_width := width; game_height := height;
     level := 0; level_geometry := []; level_objects := [];
     colored_geometry := cg_empty;
     danger := []; saves := []; start := None; end_ := None;
     player := set_center 200 200 fresh; engine_platforms := [];
     dash_emitters := []; viewport := None |}.

(** [GameState.__init__]: the result of [load_level(0)] is not looked
    at, and the engine is built over the list that [level_geometry]
    names at that moment. *)
Definition init (E : Env) (width height : Z) (fresh : Player) : Outcome unit :=
  match load_level E 0 (blank width height fresh) with
  | Returned _ s => Returned tt (set_engine (level_geometry s) s)
  | Raised e s => Raised e s
  end.

(** The window of [__main__.py], as far as it drives the game state. *)
Record Game := {
  ingame : bool;
  gamestate : option GameState;
  elapsed_time : Q;
  win_width : Z;
  win_height : Z
}.

Inductive GameOutcome :=
| Ran (g : Game)
| Crashed (e : Exn) (g : Game).

Definition set_gamestate (ingame' : bool) (gs : option GameState) (g : Game) : Game :=
  {| ingame := ingame'; gamestate := gs; elapsed_time := elapsed_time g;
     win_width := win_width g; win_height := win_height g |}.

Definition add_time (delta : Q) (g : Game) : Game :=
  {| ingame := ingame g; gamestate := gamestate g;
     elapsed_time := (elapsed_time g + delta)%Q;
     win_width := win_width g; win_height := win_height g |}.

(** [Game.__init__]. *)
Definition new_game (width height : Z) : Game :=
  {| ingame := false; gamestate := None; elapsed_time := 0;
     win_width := width; win_height := height |}.

(** [Game.start_game]: [ingame] is set before the session is built. *)
Definition start_game (E : Env) (fresh : Player) (g : Game) : GameOutcome :=
  match init E (win_width g) (win_height g) fresh with
  | Returned _ s => Ran (set_gamestate true (Some s) g)
  | Raised e _ => Crashed e (set_gamestate true (gamestate g) g)
  end.

(** [Game.on_update]. *)
Definition game_on_update (E : Env) (fresh : Player) (delta : Q) (g : Game) : GameOutcome :=
  match (if ingame g then Ran g else start_game E fresh g) with
  | Crashed e g1 => Crashed e g1
  | Ran g1 =>
      match gamestate g1 with
      | None => Ran (add_time delta g1)
      | Some s =>
          match on_update E s with
          | Returned _ s' => Ran (add_time delta (set_gamestate (ingame g1) (Some s') g1))
          | Raised e s' => Crashed e (set_gamestate (ingame g1) (Some s') g1)
          end
      end
  end.

(** [Game.on_key_press] and [Game.on_key_release]. *)
Definition game_on_key_press (E : Env) (k : Z) (g : Game) : Game :=
  match gamestate g with
  | None => g
  | Some s => set_gamestate (ingame g) (Some (on_key_press E k s)) g
  end.

Definition game_on_key_release (k : Z) (g : Game) : Game :=
  match gamestate g with
  | None => g
  | Some s => set_gamestate (ingame g) (Some (on_key_release k s)) g
  end.

(** Frames of the window, one per entry of [deltas]; the first
    exception ends the run. *)
Fixpoint game_frames (E : Env) (fresh : Player) (deltas : list Q) (g : Game) : GameOutcome :=
  match deltas with
  | [] => Ran g
  | d :: ds =>
      match game_on_update E fresh d g with
      | Ran g1 => game_frames E fresh ds g1
      | Crashed e g1 => Crashed e g1
      end
  end.

(** ** What a state holds besides the level *)

Definition others (s : GameState) :=
  (view_left s, view_bottom s, game_width s, game_height s, level s,
   player s, engine_platforms s, dash_emitters s, viewport s).

(** [graft t s]: the level of [s] inside the session [t]. *)
Definition graft (t s : GameState) : GameState := set_level_data (level_data s) t.

Definition omap {A} (f : GameState -> GameState) (o : Outcome A) : Outcome A :=
  match o with
  | Returned a s => Returned a (f s)
  | Raised e s => Raised e (f s)
  end.

(** An action that reads and writes the level fields only. *)
Definition level_only {A} (m : M A) : Prop :=
  forall s t, m (graft t s) = omap (graft t) (m s).

(** The message of the [RuntimeError] that [load_level] raises when the
    scan has ended in [s] with a marker missing. *)
Definition missing_marker (s : GameState) : string :=
  match start s with
  | None => "Start is not set."
  | Some _ => "End is not set."
  end.

(** The loaded level apart from the respawn reference and the
    decoration, which a frame may touch without any level being decoded. *)
Definition loaded (s : GameState) :=
  (level_geometry s, colored_geometry s, danger s, saves s, end_ s).

(** Every sprite a state refers to. *)
Definition opt_list {A} (o : option A) : list A :=
  match o with Some a => [a] | None => [] end.

Definition all_sprites (s : GameState) : list Sprite :=
  level_geometry s ++ level_objects s
  ++ cg_red (colored_geometry s) ++ cg_green (colored_geometry s)
  ++ cg_blue (colored_geometry s) ++ cg_white (colored_geometry s)
  ++ danger s ++ saves s ++ opt_list (start s) ++ opt_list (end_ s).

(** How the decoder sorts tiles: hazards are solid, checkpoints and the
    two markers are decoration, and every coloured tile is one or the
    other. *)
Definition sorted_level (s : GameState) : Prop :=
  incl (danger s) (level_geometry s) /\
  incl (saves s) (level_objects s) /\
  incl (opt_list (start s)) (level_objects s) /\
  incl (opt_list (end_ s)) (level_objects s) /\
  forall c, incl (cg_get (colored_geometry s) c) (level_geometry s ++ level_objects s).

(** A sprite on the grid of tiles: column [i] of [cols], row [j] of
    [rows], counted from the left and from the bottom. *)
Definition on_grid (E : Env) (cols rows : nat) (sp : Sprite) : Prop :=
  exists i j : nat,
    (i < cols)%nat /\ (j < rows)%nat /\
    (sp_left sp == inject_Z (Z.of_nat i) * TEXTURE_SIZE E)%Q /\
    (sp_bottom sp == inject_Z (Z.of_nat j) * TEXTURE_SIZE E)%Q.

(** The number of block columns and block rows [load_level] visits. *)
Definition block_columns (img : Image) : nat := List.length (py_range 0 (img_w img) 3).
Definition block_rows (img : Image) : nat :=
  List.length (py_range (img_h img - 1) (-1) (-3)).

(** The state while [sp] is being placed: sorted, with [sp] already in
    the list its name sends it to. *)
Definition sorted_with (sp : Sprite) (solid : bool) (s : GameState) : Prop :=
  sorted_level s /\
  In sp (if solid then level_geometry s else level_objects s).

(** An image made of whole 3x3 blocks of readable pixels. *)
Definition whole_blocks (img : Image) : Prop :=
  img_w img mod 3 = 0 /\ img_h img mod 3 = 0 /\
  forall x y, 0 <= x < img_w img -> 0 <= y < img_h img ->
              img_pixels img x y <> None.

(** A catalog in which a name that ends in a colour has that colour as
    its last underscore-separated part. *)
Definition colour_names_split (E : Env) : Prop :=
  forall sig tile,
    tiles E sig = Some tile ->
    endswith_any (tile_name tile) ["white"; "red"; "green"; "blue"]%string = true ->
    In (rsplit_last (tile_name tile)) ["white"; "red"; "green"; "blue"]%string.

(** An action every step of which is related by [R]. *)
Definition steps (R : GameState -> GameState -> Prop) {A} (m : M A) : Prop :=
  forall s, R s (state_of (m s)).

(** What the player is apart from where it is and how it is steered. *)
Definition player_core (p : Player) :=
  (p_width p, p_height p, change_x p, change_y p, str_color p, direction p,
   jump_count p, dash_count p, is_jumping p, jump_force p, movement_x p).

(** What a key event can never reach: the level, its index, the engine's
    platforms and the camera. *)
Definition surroundings (s : GameState) :=
  (level_data s, level s, engine_platforms s,
   view_left s, view_bottom s, viewport s, game_width s, game_height s).

(** The codes of the palette. *)
Definition alphabet : list ascii := ["W"; "R"; "G"; "B"; "L"; "P"; "D"; "E"]%char.

Fixpoint string_chars (s : string) : list ascii :=
  match s with
  | EmptyString => []
  | String c r => c :: string_chars r
  end.

Definition Qsum (l : list Q) : Q := fold_right Qplus 0%Q l.


(** The two ability counters. *)
Definition counts (p : Player) : Z * Z := (jump_count p, dash_count p).

(** The player's position. *)
Definition position (p : Player) : Q * Q := (p_left p, p_bottom p).

(** ** A concrete environment

    [constants.py], the tile catalog and the level images are not among
    the sources; the values below are test data on which the definitions
    can be run. Tiles are squares of side [TEXTURE_SIZE], and the
    collision queries are plain box overlap. *)
Module Demo.

Definition side : Q := 32%Q.

Definition overlaps (b : Box) (sp : Sprite) : bool :=
  Qltb (b_left b) (sp_left sp + side)%Q
  && Qltb (sp_left sp) (b_left b + b_width b)%Q
  && Qltb (b_bottom b) (sp_bottom sp + side)%Q
  && Qltb (sp_bottom sp) (b_bottom b + b_height b)%Q.

Definition shift (b : Box) (dx dy : Q) : Box :=
  {| b_left := (b_left b + dx)%Q; b_bottom := (b_bottom b + dy)%Q;
     b_width := b_width b; b_height := b_height b |}.

Definition catalog (sig : string) : option Tile :=
  if String.eqb sig "WWWWWWWWW" then Some {| tile_name := "block_white"; tile_texture := 1 |}
  else if String.eqb sig "RRRRRRRRR" then Some {| tile_name := "block_red"; tile_texture := 2 |}
  else if String.eqb sig "DDDDDDDDD" then Some {| tile_name := "danger"; tile_texture := 3 |}
  else if String.eqb sig "GGGGGGGGG" then Some {| tile_name := "save"; tile_texture := 4 |}
  else if String.eqb sig "LLLLLLLLL" then Some {| tile_name := "level_start"; tile_texture := 5 |}
  else if String.eqb sig "PPPPPPPPP" then Some {| tile_name := "level_end"; tile_texture := 6 |}
  else None.

Definition opaque_white : Z * Z * Z * Z := (255, 255, 255, 255).
Definition opaque_red : Z * Z * Z * Z := (255, 0, 0, 255).
Definition transparent : Z * Z * Z * Z := (0, 0, 0, 0).

(** A 6x3 image: one white block, one red block, no marker. *)
Definition no_markers : Image :=
  {| img_w := 6; img_h := 3;
     img_pixels := fun x y =>
       if (0 <=? x) && (x <? 6) && (0 <=? y) && (y <? 3)
       then Some (if x <? 3 then opaque_white else opaque_red)
       else None |}.

(** Level 1 has no marker; there is no image for any other level. *)
Definition images (level_id : Z) : option Image :=
  if level_id =? 1 then Some no_markers else None.

Definition env : Env :=
  {| AIR_CONTROL := 1 # 10; GROUND_CONTROL := 1 # 2;
     DASH_COUNT := 1; DASH_DISTANCE := 100;
     JUMP_COUNT := 2; JUMP_FORCE := 10; JUMP_VELOCITY_BONUS := 1 # 10;
     LEFT := - (1); RIGHT := 1;
     PLAYER_MOVEMENT_SPEED := 5; TEXTURE_SIZE := side; VIEWPORT_MARGIN := 250;
     open_image := images;
     tiles := catalog;
     collides_with_sprite := overlaps;
     collides_with_list := fun b l => filter (overlaps b) l;
     is_touching := fun b l => existsb (overlaps b) l;
     sweep_trace := fun b dx dy l => existsb (overlaps (shift b dx dy)) l;
     dash_emitter_factory := fun _ o n => [ {| em_old := o; em_new := n |} ];
     can_jump := fun b l => existsb (overlaps (shift b 0 (- (5)))) l;
     engine_update := fun p _ => p;
     player_update := fun p => p;
     objects_update := fun l => l;
     set_iter := fun l => l |}%Q.

Definition tile_at (texture : nat) (l b : Q) : Sprite :=
  {| sp_texture := texture; sp_left := l; sp_bottom := b |}.

Definition wall : Sprite := tile_at 2 160%Q 32%Q.

Definition floor_tiles : list Sprite :=
  [ tile_at 1 0 0; tile_at 1 32 0; tile_at 1 64 0; wall ]%Q.

Definition start_tile : Sprite := tile_at 5 0%Q 32%Q.
Definition end_tile : Sprite := tile_at 6 64%Q 32%Q.
Definition save_tile : Sprite := tile_at 4 32%Q 32%Q.

Definition lemon (l b : Q) (j d : Z) : Player :=
  {| p_left := l; p_bottom := b; p_width := 30; p_height := 30;
     change_x := 0; change_y := 0; str_color := white; direction := 1;
     jump_count := j; dash_count := d; is_jumping := false;
     jump_force := 0; movement_x := 0; movement_control := 1 # 2 |}%Q.

(** A session on level [n]: three floor tiles, a red block standing
    further right, the start, a checkpoint and the end above the floor. *)
Definition session (n : Z) (p : Player) : GameState :=
  {| view_left := 0; view_bottom := 0; game_width := 1024; game_height := 768;
     level := n;
     level_geometry := floor_tiles;
     level_objects := [start_tile; save_tile; end_tile];
     colored_geometry := {| cg_red := [wall]; cg_green := [];
                            cg_blue := [];
                            cg_white := [ tile_at 1 0 0; tile_at 1 32 0; tile_at 1 64 0 ]%Q |};
     danger := []; saves := [save_tile];
     start := Some start_tile; end_ := Some end_tile;
     player := p; engine_platforms := floor_tiles;
     dash_emitters := []; viewport := None |}.

(** The player stands on the floor and overlaps the end tile. *)
Definition at_end (n : Z) : GameState := session n (lemon 70 32 1 0).

(** The white player runs into the red block. *)
Definition at_wall : GameState := session 0 (lemon 140 32 0 0).

(** The player has landed at the start with both counters used. *)
Definition landed : GameState := session 0 (lemon 0 32 2 1).

(** The player has landed one dash away from the red block, after a jump. *)
Definition facing_wall : GameState := session 0 (lemon 60 32 1 0).


(** The player is in the air above the start, with [d] dashes used. *)
Definition in_air (d : Z) : GameState := session 0 (lemon 0 100 1 d).


(** The player is well inside the view. *)
Definition in_view : GameState := session 0 (lemon 400 300 0 0).

(** The player is far to the right of the view, half a unit off the
    pixel grid. *)
Definition far_right : GameState := session 0 (lemon (4001 # 2) 300 0 0).

(** A 9x6 image: a floor of three white blocks, and above it the start
    marker, a gap and the end marker. *)
Definition cyan : Z * Z * Z * Z := (0, 255, 255, 255).
Definition magenta : Z * Z * Z * Z := (255, 0, 255, 255).

Definition small_level : Image :=
  {| img_w := 9; img_h := 6;
     img_pixels := fun x y =>
       if (0 <=? x) && (x <? 9) && (0 <=? y) && (y <? 6)
       then Some (if 3 <=? y then opaque_white
                  else if x <? 3 then cyan
                  else if x <? 6 then transparent
                  else magenta)
       else None |}.

(** A 3x3 image of transparent pixels. *)
Definition blank_image : Image :=
  {| img_w := 3; img_h := 3;
     img_pixels := fun x y =>
       if (0 <=? x) && (x <? 3) && (0 <=? y) && (y <? 3)
       then Some transparent else None |}.

(** A 3x3 image of opaque black pixels: one danger tile. *)
Definition opaque_black : Z * Z * Z * Z := (0, 0, 0, 255).

Definition one_block : Image :=
  {| img_w := 3; img_h := 3;
     img_pixels := fun x y =>
       if (0 <=? x) && (x <? 3) && (0 <=? y) && (y <? 3)
       then Some opaque_black else None |}.

(** An environment like [env] in which level 0 is [small_level], level 1
    has no marker, level 2 is blank and level 3 is [one_block]. *)
Definition env0 : Env :=
  {| AIR_CONTROL := AIR_CONTROL env; GROUND_CONTROL := GROUND_CONTROL env;
     DASH_COUNT := DASH_COUNT env; DASH_DISTANCE := DASH_DISTANCE env;
     JUMP_COUNT := JUMP_COUNT env; JUMP_FORCE := JUMP_FORCE env;
     JUMP_VELOCITY_BONUS := JUMP_VELOCITY_BONUS env;
     LEFT := LEFT env; RIGHT := RIGHT env;
     PLAYER_MOVEMENT_SPEED := PLAYER_MOVEMENT_SPEED env;
     TEXTURE_SIZE := TEXTURE_SIZE env; VIEWPORT_MARGIN := VIEWPORT_MARGIN env;
     open_image := fun n => if n =? 0 then Some small_level
                           else if n =? 2 then Some blank_image
                           else if n =? 3 then Some one_block else images n;
     tiles := tiles env;
     collides_with_sprite := collides_with_sprite env;
     collides_with_list := collides_with_list env;
     is_touching := is_touching env;
     sweep_trace := sweep_trace env;
     dash_emitter_factory := dash_emitter_factory env;
     can_jump := can_jump env;
     engine_update := engine_update env;
     player_update := player_update env;
     objects_update := objects_update env;
     set_iter := set_iter env |}.

End Demo.

(** * Properties *)

(** ** Actions on the level fields *)

Lemma graft_self s : graft s s = s.
Proof. destruct s; reflexivity. Qed.

Lemma level_only_ret {A} (a : A) : level_only (ret a).
Proof. intros s t; reflexivity. Qed.

Lemma level_only_raise {A} (e : Exn) : level_only (@raise A e).
Proof. intros s t; reflexivity. Qed.

Lemma level_only_modify (f : LevelData -> LevelData) :
  level_only (modify (with_level_data f)).
Proof. intros s t; reflexivity. Qed.

Lemma level_only_bind {A B} (m : M A) (k : A -> M B) :
  level_only m -> (forall a, level_only (k a)) -> level_only (bind m k).
Proof.
  intros Hm Hk s t. unfold bind. rewrite Hm.
  destruct (m s) as [a s'|e s']; simpl; [apply Hk | reflexivity].
Qed.

Lemma level_only_if {A} (b : bool) (m1 m2 : M A) :
  level_only m1 -> level_only m2 -> level_only (if b then m1 else m2).
Proof. destruct b; auto. Qed.

Lemma level_only_place tile l b : level_only (place tile l b).
Proof.
  unfold place.
  repeat (apply level_only_bind; [|intros _]);
    repeat apply level_only_if;
    try apply level_only_ret; try (intros s t; reflexivity).
  intros s t. change (colored_geometry (graft t s)) with (colored_geometry s).
  destruct (cg_append (colored_geometry s) _ _); reflexivity.
Qed.

Lemma level_only_scan_row E img y xs : forall l b, level_only (scan_row E img y xs l b).
Proof.
  induction xs as [|x xs IH]; intros l b; simpl.
  - apply level_only_ret.
  - destruct (signature img x y) as [e|colors].
    + apply level_only_raise.
    + apply level_only_bind; [|intros _; apply IH].
      destruct (tiles E colors); [apply level_only_place | apply level_only_ret].
Qed.

Lemma level_only_scan_rows E img xs ys : forall b, level_only (scan_rows E img ys xs b).
Proof.
  induction ys as [|y ys IH]; intros b; simpl.
  - apply level_only_ret.
  - apply level_only_bind; [apply level_only_scan_row | intros _; apply IH].
Qed.

Lemma level_only_scan E img : level_only (scan E img).
Proof. apply level_only_scan_rows. Qed.

(** Such an action leaves the rest of the session alone. *)
Lemma level_only_others {A} (m : M A) s :
  level_only m -> others (state_of (m s)) = others s.
Proof.
  intros H. specialize (H s s). rewrite graft_self in H.
  rewrite H. destruct (m s); reflexivity.
Qed.

(** ** [load_level] *)

Lemma load_level_not_found E id s :
  open_image E id = None -> load_level E id s = Returned false s.
Proof. intros H. unfold load_level. rewrite H. reflexivity. Qed.

(** A scan that ends with a marker missing makes [load_level] raise, in
    the state the scan has reached. *)
Lemma load_level_invalid_raises E id img s s1 :
  open_image E id = Some img ->
  scan E img (set_level_data empty_level s) = Returned tt s1 ->
  start s1 = None \/ end_ s1 = None ->
  load_level E id s = Raised (RuntimeError (missing_marker s1)) s1.
Proof.
  intros Hopen Hscan Hmiss. unfold load_level. rewrite Hopen.
  unfold bind at 1. unfold modify at 1. unfold bind at 1. rewrite Hscan.
  unfold bind, get, missing_marker.
  destruct (start s1) as [st|] eqn:Hs; [|reflexivity].
  destruct Hmiss as [Hm|Hm]; [discriminate|]. rewrite Hm. reflexivity.
Qed.

Lemma set_position_same p : set_position (p_left p) (p_bottom p) p = p.
Proof. destruct p; reflexivity. Qed.

(** Outside the level fields, [load_level] changes at most the player's
    position, whatever its outcome. *)
Lemma load_level_others E id s :
  exists l b,
    others (state_of (load_level E id s)) = others (with_player (set_position l b) s).
Proof.
  assert (Hsame : others s = others (with_player (set_position (p_left (player s)) (p_bottom (player s))) s)).
  { unfold others; simpl. rewrite set_position_same. reflexivity. }
  unfold load_level. destruct (open_image E id) as [img|].
  2:{ do 2 eexists. exact Hsame. }
  unfold bind at 1. unfold modify at 1. unfold bind at 1.
  pose proof (level_only_others (scan E img) (set_level_data empty_level s)
                (level_only_scan E img)) as Ho.
  change (others (set_level_data empty_level s)) with (others s) in Ho.
  destruct (scan E img (set_level_data empty_level s)) as [[] s1|e s1]; simpl in Ho.
  2:{ do 2 eexists. simpl. rewrite Ho. exact Hsame. }
  unfold bind, get.
  destruct (start s1) as [st|] eqn:Hs; [destruct (end_ s1) eqn:He|].
  - unfold move_to_start. rewrite Hs. simpl.
    exists (sp_left st), (sp_bottom st).
    unfold others in *; simpl. inversion Ho. reflexivity.
  - do 2 eexists. simpl. rewrite Ho. exact Hsame.
  - do 2 eexists. simpl. rewrite Ho. exact Hsame.
Qed.

(** C1, as amended. When the image opens and the scan ends with the start
    or the end marker missing, [load_level] raises a [RuntimeError], and
    the state at the raise no longer holds the previous level: its level
    fields are the tiles decoded from the new image, the same whatever
    session [t] the decode started from. The rest of the session (level
    index, player, camera) is as it was. *)
Theorem load_level_invalid_discards_previous_level E id img s s1 :
  open_image E id = Some img ->
  scan E img (set_level_data empty_level s) = Returned tt s1 ->
  start s1 = None \/ end_ s1 = None ->
  load_level E id s = Raised (RuntimeError (missing_marker s1)) s1 /\
  others s1 = others s /\
  forall t, exists t1,
    load_level E id t = Raised (RuntimeError (missing_marker s1)) t1 /\
    level_data t1 = level_data s1 /\ others t1 = others t.
Proof.
  intros Hopen Hscan Hmiss. split; [|split].
  - eapply load_level_invalid_raises; eassumption.
  - pose proof (level_only_others (scan E img) (set_level_data empty_level s)
                  (level_only_scan E img)) as Ho.
    rewrite Hscan in Ho. exact Ho.
  - intros t. exists (graft t s1).
    assert (Ht : scan E img (set_level_data empty_level t) = Returned tt (graft t s1)).
    { change (set_level_data empty_level t)
        with (graft t (set_level_data empty_level s)).
      rewrite (level_only_scan E img). rewrite Hscan. reflexivity. }
    split; [|split; reflexivity].
    change (missing_marker s1) with (missing_marker (graft t s1)).
    eapply load_level_invalid_raises; [eassumption | exact Ht | exact Hmiss].
Qed.

Lemma load_level_invalid_discards_previous_level_witness :
  (open_image Demo.env 1 = Some Demo.no_markers /\
   scan Demo.env Demo.no_markers (set_level_data empty_level (Demo.at_end 0))
     = Returned tt (state_of (load_level Demo.env 1 (Demo.at_end 0))) /\
   (start (state_of (load_level Demo.env 1 (Demo.at_end 0))) = None \/
    end_ (state_of (load_level Demo.env 1 (Demo.at_end 0))) = None)) /\
  (load_level Demo.env 1 (Demo.at_end 0)
     = Raised (RuntimeError "Start is not set.")
         (state_of (load_level Demo.env 1 (Demo.at_end 0))) /\
   others (state_of (load_level Demo.env 1 (Demo.at_end 0))) = others (Demo.at_end 0) /\
   forall t, exists t1,
     load_level Demo.env 1 t = Raised (RuntimeError "Start is not set.") t1 /\
     level_data t1 = level_data (state_of (load_level Demo.env 1 (Demo.at_end 0))) /\
     others t1 = others t).
Proof.
  assert (H1 : open_image Demo.env 1 = Some Demo.no_markers) by reflexivity.
  assert (H2 : scan Demo.env Demo.no_markers (set_level_data empty_level (Demo.at_end 0))
               = Returned tt (state_of (load_level Demo.env 1 (Demo.at_end 0))))
    by (vm_compute; reflexivity).
  assert (H3 : start (state_of (load_level Demo.env 1 (Demo.at_end 0))) = None \/
               end_ (state_of (load_level Demo.env 1 (Demo.at_end 0))) = None)
    by (left; vm_compute; reflexivity).
  split; [split; [exact H1 | split; [exact H2 | exact H3]]|].
  exact (load_level_invalid_discards_previous_level
           Demo.env 1 Demo.no_markers (Demo.at_end 0) _ H1 H2 H3).
Defined.

(** C1 as stated fails: a session with a level loaded, asked to decode
    the marker-less image of level 1, raises and is left with the level
    fields of the new image, not with those it had. *)
Lemma load_level_invalid_loses_previous_level :
  raised (load_level Demo.env 1 (Demo.at_end 0))
    = Some (RuntimeError "Start is not set.") /\
  level_data (state_of (load_level Demo.env 1 (Demo.at_end 0)))
    <> level_data (Demo.at_end 0).
Proof.
  split; [vm_compute; reflexivity|].
  intros H. apply (f_equal ld_saves) in H. vm_compute in H. discriminate.
Qed.

(** ** The steps of a frame *)

Section Frame.

Variable E : Env.

Lemma update_end_collides s e :
  end_ s = Some e ->
  collides_with_sprite E (box (player s)) e = true ->
  update_end E s =
  match load_level E (level s + 1) (set_level (level s + 1) s) with
  | Returned _ s' => Returned tt s'
  | Raised x s' => Raised x s'
  end.
Proof.
  intros He Hc. unfold update_end, bind, get. rewrite He, Hc.
  unfold modify. destruct (load_level _ _ _); reflexivity.
Qed.

Lemma respawn_twice r s : respawn r (respawn r s) = respawn r s.
Proof. reflexivity. Qed.

(** Once the player is back at the respawn reference, the remaining
    colour checks change nothing. *)
Lemma update_colors_respawned r cs : forall s,
  start s = Some r ->
  update_colors E cs (respawn r s) = Returned tt (respawn r s).
Proof.
  induction cs as [|c cs IH]; intros s Hs; simpl; [reflexivity|].
  unfold bind at 1. unfold bind at 1. unfold get.
  destruct (touches E (respawn r s) c).
  - unfold move_to_start. change (start (respawn r s)) with (start s).
    rewrite Hs, respawn_twice. apply IH, Hs.
  - simpl. apply IH, Hs.
Qed.

Lemma update_colors_spec r cs : forall s,
  start s = Some r ->
  update_colors E cs s =
  Returned tt (if existsb (touches E s) cs then respawn r s else s).
Proof.
  induction cs as [|c cs IH]; intros s Hs; simpl; [reflexivity|].
  unfold bind at 1. unfold bind at 1. unfold get.
  destruct (touches E s c) eqn:Ht; simpl.
  - unfold move_to_start. rewrite Hs. apply update_colors_respawned, Hs.
  - apply IH, Hs.
Qed.

(** Lines 182-189 as one step. *)
Lemma hazards_spec r s :
  start s = Some r ->
  (update_danger E ;;; (s' <- get ;; update_colors E (mismatched E s'))) s =
  Returned tt (if contact E s then respawn r s else s).
Proof.
  intros Hs. unfold contact, bind at 1, update_danger, bind at 1, get.
  destruct (is_touching E (box (player s)) (danger s)); simpl.
  - unfold move_to_start. rewrite Hs. unfold bind.
    change (mismatched E (respawn r s)) with (mismatched E s).
    apply update_colors_respawned, Hs.
  - unfold bind. apply update_colors_spec, Hs.
Qed.

Lemma update_rules_from s s0 :
  (update_control E ;;; update_end E) s = Returned tt s0 ->
  update_rules E s =
  (update_danger E ;;; (s' <- get ;; update_colors E (mismatched E s')))
    (claim_checkpoint E s0).
Proof.
  unfold update_rules. unfold bind at 1 2 3. unfold update_control at 1 2, modify.
  destruct (update_end E _) as [[] s'|x s']; [|discriminate].
  intros H; inversion H; subst. reflexivity.
Qed.

(** *** What the rules keep *)

Section Kept.

Variable X : Type.
Variable f : GameState -> X.
Hypothesis f_others : forall s t, others s = others t -> f s = f t.
Hypothesis f_position : forall l b s, f (with_player (set_position l b) s) = f s.

Lemma kept_load_level id s : f (state_of (load_level E id s)) = f s.
Proof.
  destruct (load_level_others E id s) as (l & b & H).
  rewrite (f_others _ _ H). apply f_position.
Qed.

Lemma kept_move_to_start s : f (state_of (move_to_start s)) = f s.
Proof.
  unfold move_to_start. destruct (start s); simpl; [apply f_position | reflexivity].
Qed.

Lemma kept_claim_checkpoint s : f (claim_checkpoint E s) = f s.
Proof.
  unfold claim_checkpoint. destruct (rev _); [reflexivity|].
  apply f_others. reflexivity.
Qed.

Lemma kept_update_danger s : f (state_of (update_danger E s)) = f s.
Proof.
  unfold update_danger, bind, get.
  destruct (is_touching _ _ _); [apply kept_move_to_start | reflexivity].
Qed.

Lemma kept_update_colors cs : forall s, f (state_of (update_colors E cs s)) = f s.
Proof.
  induction cs as [|c cs IH]; intros s; simpl; [reflexivity|].
  unfold bind at 1. unfold bind at 1. unfold get.
  destruct (touches E s c).
  - pose proof (kept_move_to_start s) as Hm.
    destruct (move_to_start s) as [[] s'|x s']; simpl in *; [|exact Hm].
    rewrite IH. exact Hm.
  - simpl. apply IH.
Qed.

(** From the checkpoint step to the end of the rules. *)
Lemma kept_hazards s :
  f (state_of ((update_danger E ;;; (s' <- get ;; update_colors E (mismatched E s'))) s)) = f s.
Proof.
  unfold bind at 1. pose proof (kept_update_danger s) as Hd.
  destruct (update_danger E s) as [[] s1|x s1]; simpl in *; [|exact Hd].
  unfold bind, get. rewrite kept_update_colors. exact Hd.
Qed.

Lemma kept_after_end s :
  f (state_of ((update_saves E ;;; update_danger E ;;;
                (s' <- get ;; update_colors E (mismatched E s'))) s)) = f s.
Proof.
  unfold bind at 1. unfold update_saves at 1, modify.
  rewrite kept_hazards. apply kept_claim_checkpoint.
Qed.

Lemma kept_rules_tail s :
  f (state_of (update_rules E s)) =
  f (state_of (update_end E (state_of (update_control E s)))).
Proof.
  unfold update_rules. unfold bind at 1. unfold update_control at 1, modify.
  unfold bind at 1. simpl state_of at 3.
  pose proof kept_after_end as K.
  destruct (update_end E _) as [[] s1|x s1]; [apply K | reflexivity].
Qed.

Hypothesis f_control : forall c s, f (with_player (set_movement_control c) s) = f s.
Hypothesis f_level : forall n s, f (set_level n s) = f s.

Lemma kept_update_end s : f (state_of (update_end E s)) = f s.
Proof.
  unfold update_end, bind at 1, get.
  destruct (end_ s) as [e|]; [|reflexivity].
  destruct (collides_with_sprite E (box (player s)) e); [|reflexivity].
  unfold bind at 1, modify. unfold bind.
  pose proof (kept_load_level (level s + 1) (set_level (level s + 1) s)) as K.
  rewrite f_level in K.
  destruct (load_level _ _ _); exact K.
Qed.

Lemma kept_update_rules s : f (state_of (update_rules E s)) = f s.
Proof.
  rewrite kept_rules_tail, kept_update_end. simpl. apply f_control.
Qed.

End Kept.

(** The motion steps leave the level index alone. *)
Lemma on_update_level s :
  level (state_of (on_update E s)) = level (state_of (update_rules E s)).
Proof.
  unfold on_update, bind.
  destruct (update_rules E s) as [[] s1|x s1]; reflexivity.
Qed.

End Frame.

(** ** Reaching the end tile *)

Lemma level_kept_by_others s t : others s = others t -> level s = level t.
Proof. unfold others. intros H. inversion H. reflexivity. Qed.

Lemma update_end_not_found E s e :
  end_ s = Some e ->
  collides_with_sprite E (box (player s)) e = true ->
  open_image E (level s + 1) = None ->
  (update_control E ;;; update_end E) s =
  Returned tt (set_level (level s + 1) (state_of (update_control E s))).
Proof.
  intros He Hc Hopen. unfold bind.
  change (update_control E s) with (Returned tt (state_of (update_control E s))).
  cbv beta iota.
  rewrite (update_end_collides E (state_of (update_control E s)) e He Hc).
  rewrite (load_level_not_found E _ _ Hopen). reflexivity.
Qed.

Lemma update_end_invalid E s e img s1 :
  end_ s = Some e ->
  collides_with_sprite E (box (player s)) e = true ->
  open_image E (level s + 1) = Some img ->
  scan E img (set_level_data empty_level
                (set_level (level s + 1) (state_of (update_control E s))))
    = Returned tt s1 ->
  start s1 = None \/ end_ s1 = None ->
  on_update E s = Raised (RuntimeError (missing_marker s1)) s1.
Proof.
  intros He Hc Hopen Hscan Hmiss.
  unfold on_update, update_rules. unfold bind at 1 2.
  change (update_control E s) with (Returned tt (state_of (update_control E s))).
  cbv beta iota. unfold bind at 1.
  rewrite (update_end_collides E (state_of (update_control E s)) e He Hc).
  change (level (state_of (update_control E s))) with (level s).
  rewrite (load_level_invalid_raises E _ img _ s1 Hopen Hscan Hmiss).
  reflexivity.
Qed.

(** C3, as amended. In a frame that reaches the end tile, a missing
    image (LevelNotFound) comes back from [load_level] as [False] and the
    frame goes on with the level index advanced; an image without its
    markers (LevelInvalid) makes [load_level] raise a [RuntimeError],
    which [on_update] does not catch: the frame itself ends in that
    exception. *)
Theorem decode_failure_propagation E s e :
  end_ s = Some e ->
  collides_with_sprite E (box (player s)) e = true ->
  (open_image E (level s + 1) = None ->
     (forall t, load_level E (level s + 1) t = Returned false t) /\
     (update_control E ;;; update_end E) s =
       Returned tt (set_level (level s + 1) (state_of (update_control E s)))) /\
  (forall img s1,
     open_image E (level s + 1) = Some img ->
     scan E img (set_level_data empty_level
                   (set_level (level s + 1) (state_of (update_control E s))))
       = Returned tt s1 ->
     start s1 = None \/ end_ s1 = None ->
     on_update E s = Raised (RuntimeError (missing_marker s1)) s1).
Proof.
  intros He Hc. split.
  - intros Hopen. split.
    + intros t. apply load_level_not_found, Hopen.
    + eapply update_end_not_found; eassumption.
  - intros img s1. eapply update_end_invalid; eassumption.
Qed.

Lemma decode_failure_propagation_witness :
  (end_ (Demo.at_end 0) = Some Demo.end_tile /\
   collides_with_sprite Demo.env (box (player (Demo.at_end 0))) Demo.end_tile = true) /\
  on_update Demo.env (Demo.at_end 0) =
    Raised (RuntimeError "Start is not set.")
           (state_of (on_update Demo.env (Demo.at_end 0))).
Proof.
  split; [split; reflexivity|].
  assert (H2 : scan Demo.env Demo.no_markers
                 (set_level_data empty_level
                    (set_level (level (Demo.at_end 0) + 1)
                       (state_of (update_control Demo.env (Demo.at_end 0)))))
               = Returned tt (state_of (on_update Demo.env (Demo.at_end 0))))
    by (vm_compute; reflexivity).
  assert (H3 : start (state_of (on_update Demo.env (Demo.at_end 0))) = None \/
               end_ (state_of (on_update Demo.env (Demo.at_end 0))) = None)
    by (left; vm_compute; reflexivity).
  exact (proj2 (decode_failure_propagation Demo.env (Demo.at_end 0) Demo.end_tile
                  eq_refl eq_refl) Demo.no_markers _ eq_refl H2 H3).
Defined.

(** C3 as stated fails: the frame in which the player reaches the end of
    level 0, with the image of level 1 lacking its markers, ends in a
    raised [RuntimeError]. *)
Lemma on_update_raises_on_invalid_level :
  raised (on_update Demo.env (Demo.at_end 0))
    = Some (RuntimeError "Start is not set.").
Proof. vm_compute. reflexivity. Qed.

(** A frame on the end tile with no further image: the frame returns,
    the index has advanced and the level is the one already loaded. *)
Lemma frame_past_last_level E s e r :
  end_ s = Some e ->
  start s = Some r ->
  collides_with_sprite E (box (player s)) e = true ->
  open_image E (level s + 1) = None ->
  exists s' r',
    on_update E s = Returned tt s' /\
    level s' = level s + 1 /\
    loaded s' = loaded s /\
    start s' = Some r' /\
    level_objects s' = objects_update E (level_objects s).
Proof.
  intros He Hs Hc Hopen.
  pose proof (update_end_not_found E s e He Hc Hopen) as H0.
  pose proof (update_rules_from E s _ H0) as Hr.
  set (s0 := set_level (level s + 1) (state_of (update_control E s))) in *.
  assert (Hstart : exists r', start (claim_checkpoint E s0) = Some r').
  { unfold claim_checkpoint. destruct (rev _) as [|sv l].
    - exists r. exact Hs.
    - exists sv. reflexivity. }
  destruct Hstart as [r' Hr'].
  rewrite (hazards_spec E r' _ Hr') in Hr.
  unfold on_update, bind. rewrite Hr.
  eexists. exists r'. split; [reflexivity|].
  assert (Hl : loaded (claim_checkpoint E s0) = loaded s
               /\ level (claim_checkpoint E s0) = level s + 1
               /\ level_objects (claim_checkpoint E s0) = level_objects s).
  { unfold claim_checkpoint. destruct (rev _); repeat split; reflexivity. }
  destruct Hl as (Hl1 & Hl2 & Hl3).
  destruct (contact E (claim_checkpoint E s0)); simpl;
    unfold loaded in *; simpl in *; rewrite Hl3; auto.
Qed.

Lemma frames_step E n s s' :
  on_update E s = Returned tt s' ->
  frames E (S n) s = frames E n s'.
Proof. intros H. simpl. unfold bind. rewrite H. reflexivity. Qed.

(** C10. A frame in which the player overlaps the end tile advances the
    level index by exactly one, whatever the decode of the next level
    does; and as long as the player stays on the end tile of the last
    level (no image for any further index), [n] frames return with the
    index advanced by [n] and the loaded level as it was. *)
Theorem level_index_grows_on_end_tile E s e :
  end_ s = Some e ->
  collides_with_sprite E (box (player s)) e = true ->
  level (state_of (on_update E s)) = level s + 1 /\
  forall n r,
    start s = Some r ->
    (forall k, (k < n)%nat -> open_image E (level s + Z.of_nat k + 1) = None) ->
    (forall k, (k < n)%nat ->
       collides_with_sprite E (box (player (state_of (frames E k s)))) e = true) ->
    exists s',
      frames E n s = Returned tt s' /\
      level s' = level s + Z.of_nat n /\
      loaded s' = loaded s /\
      level_objects s' = Nat.iter n (objects_update E) (level_objects s).
Proof.
  intros He Hc. split.
  - rewrite on_update_level.
    rewrite (kept_rules_tail E Z level level_kept_by_others (fun _ _ _ => eq_refl)).
    rewrite (update_end_collides E (state_of (update_control E s)) e He Hc).
    pose proof (kept_load_level E Z level level_kept_by_others (fun _ _ _ => eq_refl)
                  (level s + 1) (set_level (level s + 1) (state_of (update_control E s)))) as K.
    simpl level in *.
    destruct (load_level _ _ _); exact K.
  - clear Hc. intros n. revert s He.
    induction n as [|n IH]; intros s He r Hs Hopen Hcol.
    + exists s. simpl. repeat split; try reflexivity. lia.
    + assert (Hc0 : collides_with_sprite E (box (player s)) e = true).
      { apply (Hcol O). lia. }
      assert (Ho0 : open_image E (level s + 1) = None).
      { specialize (Hopen O). simpl in Hopen. rewrite Z.add_0_r in Hopen.
        apply Hopen. lia. }
      destruct (frame_past_last_level E s e r He Hs Hc0 Ho0)
        as (s1 & r1 & Hup & Hlev & Hload & Hs1 & Hobj).
      assert (He1 : end_ s1 = Some e).
      { unfold loaded in Hload. inversion Hload. congruence. }
      destruct (IH s1 He1 r1 Hs1) as (s' & Hf & Hl' & Hld' & Hob').
      * intros k Hk. rewrite Hlev.
        replace (level s + 1 + Z.of_nat k + 1) with (level s + Z.of_nat (S k) + 1) by lia.
        apply Hopen. lia.
      * intros k Hk. rewrite <- (frames_step E k s s1 Hup). apply Hcol. lia.
      * exists s'. rewrite (frames_step E n s s1 Hup).
        split; [exact Hf|]. split; [lia|]. split; [congruence|].
        rewrite Hob', Hobj. rewrite Nat.iter_succ_r. reflexivity.
Qed.

Lemma level_index_grows_on_end_tile_witness :
  (end_ (Demo.at_end 5) = Some Demo.end_tile /\
   collides_with_sprite Demo.env (box (player (Demo.at_end 5))) Demo.end_tile = true /\
   start (Demo.at_end 5) = Some Demo.start_tile /\
   (forall k, (k < 3)%nat ->
      open_image Demo.env (level (Demo.at_end 5) + Z.of_nat k + 1) = None) /\
   (forall k, (k < 3)%nat ->
      collides_with_sprite Demo.env
        (box (player (state_of (frames Demo.env k (Demo.at_end 5))))) Demo.end_tile = true)) /\
  level (state_of (on_update Demo.env (Demo.at_end 5))) = 6 /\
  exists s',
    frames Demo.env 3 (Demo.at_end 5) = Returned tt s' /\
    level s' = 8 /\
    loaded s' = loaded (Demo.at_end 5) /\
    level_objects s' = level_objects (Demo.at_end 5).
Proof.
  assert (Ho : forall k, (k < 3)%nat ->
             open_image Demo.env (level (Demo.at_end 5) + Z.of_nat k + 1) = None).
  { intros [|[|[|k]]] Hk; [reflexivity | reflexivity | reflexivity | lia]. }
  assert (Hc : forall k, (k < 3)%nat ->
             collides_with_sprite Demo.env
               (box (player (state_of (frames Demo.env k (Demo.at_end 5)))))
               Demo.end_tile = true).
  { intros [|[|[|k]]] Hk;
      [vm_compute; reflexivity | vm_compute; reflexivity | vm_compute; reflexivity | lia]. }
  split; [repeat split; try reflexivity; assumption|].
  destruct (level_index_grows_on_end_tile Demo.env (Demo.at_end 5) Demo.end_tile
              eq_refl eq_refl) as [H1 H2].
  split; [exact H1|].
  exact (H2 3%nat Demo.start_tile eq_refl Ho Hc).
Defined.

(** ** Hazards and mismatched colours *)

Lemma Color_eqb_eq a b : Color_eqb a b = true <-> a = b.
Proof. destruct a, b; simpl; split; intros H; try reflexivity; discriminate. Qed.

(** The colours the loop visits: red, green and blue without the
    player's own, in whatever order the set is iterated. *)
Lemma In_mismatched E s c :
  (forall l, Permutation (set_iter E l) l) ->
  In c (mismatched E s) <-> c <> white /\ c <> str_color (player s).
Proof.
  intros Hperm. unfold mismatched, discard.
  split.
  - intros H. apply (Permutation_in _ (Hperm _)) in H.
    apply filter_In in H. destruct H as [Hin Hneq]. split.
    + intros ->. simpl in Hin. intuition discriminate.
    + intros ->. rewrite (proj2 (Color_eqb_eq _ _) eq_refl) in Hneq. discriminate.
  - intros [Hw Hc]. apply (Permutation_in _ (Permutation_sym (Hperm _))).
    apply filter_In. split.
    + destruct c; simpl; auto.
    + destruct (Color_eqb c (str_color (player s))) eqn:Heq; [|reflexivity].
      apply Color_eqb_eq in Heq. contradiction.
Qed.

Lemma contact_true E s :
  (forall l, Permutation (set_iter E l) l) ->
  contact E s = true <->
  is_touching E (box (player s)) (danger s) = true \/
  exists c, c <> white /\ c <> str_color (player s) /\ touches E s c = true.
Proof.
  intros Hperm. unfold contact. rewrite orb_true_iff, existsb_exists.
  split; (intros [H|(c & H)]; [left; exact H | right; exists c]).
  - destruct H as [Hin Ht]. apply (In_mismatched E s c Hperm) in Hin. tauto.
  - destruct H as (Hw & Hc & Ht). split; [|exact Ht].
    apply (In_mismatched E s c Hperm). tauto.
Qed.

(** C4. Let [s1] be the state of a frame once the end tile and the
    checkpoints have been dealt with, and [r] its respawn reference. If
    the player's box then touches a hazard, or a red, green or blue tile
    of a colour other than the player's, the rules of the frame hand the
    player over at exactly [r]'s left and bottom to the motion steps
    that end the frame; if it touches neither, nothing moves, whatever
    it touches of its own colour or of white.
    [r] is the checkpoint claimed in this frame (the last of those
    touched) and otherwise the reference the frame started with. *)
Theorem hazard_contact_respawns E s s0 s1 r :
  (forall l, Permutation (set_iter E l) l) ->
  (update_control E ;;; update_end E) s = Returned tt s0 ->
  claim_checkpoint E s0 = s1 ->
  start s1 = Some r ->
  ((is_touching E (box (player s1)) (danger s1) = true \/
    exists c, c <> white /\ c <> str_color (player s1) /\ touches E s1 c = true) ->
   update_rules E s = Returned tt (respawn r s1) /\
   position (player (respawn r s1)) = (sp_left r, sp_bottom r) /\
   start (respawn r s1) = Some r /\
   on_update E s = update_motion E (respawn r s1)) /\
  (is_touching E (box (player s1)) (danger s1) = false ->
   (forall c, c <> white -> c <> str_color (player s1) -> touches E s1 c = false) ->
   update_rules E s = Returned tt s1 /\
   on_update E s = update_motion E s1) /\
  (collides_with_list E (box (player s0)) (saves s0) = [] -> start s0 = Some r) /\
  (forall l sv,
     collides_with_list E (box (player s0)) (saves s0) = l ++ [sv] -> r = sv).
Proof.
  intros Hperm H0 H1 Hs.
  pose proof (update_rules_from E s s0 H0) as Hr. rewrite H1 in Hr.
  rewrite (hazards_spec E r s1 Hs) in Hr.
  split; [|split; [|split]].
  - intros Hc. apply (contact_true E s1 Hperm) in Hc. rewrite Hc in Hr.
    split; [exact Hr|]. split; [reflexivity|]. split; [exact Hs|].
    unfold on_update, bind. rewrite Hr. reflexivity.
  - intros Hd Hcol.
    assert (Hc : contact E s1 = false).
    { destruct (contact E s1) eqn:Hc; [|reflexivity].
      apply (contact_true E s1 Hperm) in Hc.
      destruct Hc as [Hc|(c & Hw & Hn & Ht)]; [congruence|].
      rewrite (Hcol c Hw Hn) in Ht. discriminate. }
    rewrite Hc in Hr. split; [exact Hr|].
    unfold on_update, bind. rewrite Hr. reflexivity.
  - intros Hnone. subst s1. unfold claim_checkpoint in Hs.
    rewrite Hnone in Hs. exact Hs.
  - intros l sv Hl. subst s1. unfold claim_checkpoint in Hs.
    rewrite Hl, rev_app_distr in Hs. simpl in Hs. congruence.
Qed.

Lemma hazard_contact_respawns_witness :
  ((forall l, Permutation (set_iter Demo.env l) l) /\
   (update_control Demo.env ;;; update_end Demo.env) Demo.at_wall
     = Returned tt (state_of (update_control Demo.env Demo.at_wall)) /\
   claim_checkpoint Demo.env (state_of (update_control Demo.env Demo.at_wall))
     = state_of (update_control Demo.env Demo.at_wall) /\
   start (state_of (update_control Demo.env Demo.at_wall)) = Some Demo.start_tile /\
   touches Demo.env (state_of (update_control Demo.env Demo.at_wall)) red = true) /\
  update_rules Demo.env Demo.at_wall
    = Returned tt (respawn Demo.start_tile
                     (state_of (update_control Demo.env Demo.at_wall))) /\
  position (player (state_of (update_rules Demo.env Demo.at_wall))) = (0%Q, 32%Q).
Proof.
  assert (Hp : forall l, Permutation (set_iter Demo.env l) l)
    by (intros l; apply Permutation_refl).
  assert (Ht : touches Demo.env (state_of (update_control Demo.env Demo.at_wall)) red = true)
    by reflexivity.
  split;
    [split; [exact Hp | split; [reflexivity | split; [reflexivity |
       split; [reflexivity | exact Ht]]]]|].
  destruct (hazard_contact_respawns Demo.env Demo.at_wall _ _ Demo.start_tile
              Hp eq_refl eq_refl eq_refl) as [H _].
  destruct H as (H1 & H2 & _ & _).
  - right. exists red. split; [discriminate | split; [discriminate | exact Ht]].
  - split; [exact H1|]. rewrite H1. reflexivity.
Defined.

(** ** Key presses *)

Section KeyLemmas.

Variable E : Env.

Lemma press_color_grounded k s : grounded E (press_color k s) = grounded E s.
Proof.
  unfold press_color.
  destruct (k =? key.E); destruct (key_colors_get key_colors k); reflexivity.
Qed.

Lemma press_color_counts k s :
  counts (player (press_color k s)) = counts (player s).
Proof.
  unfold press_color.
  destruct (k =? key.E); destruct (key_colors_get key_colors k); reflexivity.
Qed.

Lemma press_pre_grounded s : grounded E (press_pre E s) = grounded E s.
Proof. unfold press_pre. destruct (grounded E s) eqn:H; exact H. Qed.

Lemma press_pre_counts s :
  counts (player (press_pre E s)) =
  if grounded E s then (0, 0) else counts (player s).
Proof. unfold press_pre. destruct (grounded E s); reflexivity. Qed.

Lemma press_pre_box s : box (player (press_pre E s)) = box (player s).
Proof. unfold press_pre. destruct (grounded E s); reflexivity. Qed.

Lemma press_pre_geometry s : level_geometry (press_pre E s) = level_geometry s.
Proof. unfold press_pre. destruct (grounded E s); reflexivity. Qed.

Lemma press_dash_grounded_counts k s :
  grounded E s = true ->
  counts (player (press_dash E k s)) = counts (player s).
Proof.
  intros H. unfold press_dash. rewrite H.
  destruct (k =? key.LSHIFT); [|reflexivity].
  destruct (sweep_trace E _ _ _ _); reflexivity.
Qed.

Lemma press_jump_counts k s :
  counts (player (press_jump E k s)) =
  (if k =? key.SPACE then jump_count (player s) + 1 else jump_count (player s),
   dash_count (player s)).
Proof.
  unfold press_jump. destruct (k =? key.SPACE); [|reflexivity].
  simpl. destruct (_ <=? _); reflexivity.
Qed.

Lemma press_move_counts k s :
  counts (player (press_move E k s)) = counts (player s).
Proof.
  unfold press_move.
  destruct ((k =? key.LEFT) || (k =? key.A));
    destruct ((k =? key.RIGHT) || (k =? key.D)); reflexivity.
Qed.

(** A press of the dash key is its [# Pre] step followed by the dash. *)
Lemma on_key_press_dash s :
  on_key_press E key.LSHIFT s = press_dash E key.LSHIFT (press_pre E s).
Proof. reflexivity. Qed.

Lemma counts_others s t : others s = others t -> counts (player s) = counts (player t).
Proof. unfold others. intros H. inversion H. reflexivity. Qed.

(** The rules of a frame never write the counters. *)
Lemma update_rules_counts s :
  counts (player (state_of (update_rules E s))) = counts (player s).
Proof.
  apply (kept_update_rules E _ (fun s => counts (player s)) counts_others);
    intros; reflexivity.
Qed.

End KeyLemmas.

(** C9. A key press delivered while the engine reports the player
    grounded, whichever key it is, sets both counters to zero in its
    [# Pre] step, which runs before the dash and jump logic of the same
    event; the event ends with no dash counted and with one jump counted
    exactly when the key is the jump key. A frame has no such step: the
    rules of [on_update] leave both counters as they are, and so does the
    whole of [on_update] when [Player.update] and the engine's step do
    not write them. *)
Theorem key_press_resets_counters_when_grounded E k s :
  grounded E s = true ->
  counts (player (press_pre E (press_color k s))) = (0, 0) /\
  on_key_press E k s =
    press_move E k (press_jump E k (press_dash E k (press_pre E (press_color k s)))) /\
  counts (player (on_key_press E k s)) = ((if k =? key.SPACE then 1 else 0), 0) /\
  (forall t, counts (player (state_of (update_rules E t))) = counts (player t)) /\
  ((forall p, counts (player_update E p) = counts p) ->
   (forall p l, counts (engine_update E p l) = counts p) ->
   forall t, counts (player (state_of (on_update E t))) = counts (player t)).
Proof.
  intros Hg.
  assert (Hpre : counts (player (press_pre E (press_color k s))) = (0, 0)).
  { rewrite press_pre_counts, press_color_grounded, Hg. reflexivity. }
  split; [exact Hpre|]. split; [reflexivity|]. split; [|split].
  - unfold on_key_press.
    rewrite press_move_counts, press_jump_counts.
    assert (Hd : counts (player (press_dash E k (press_pre E (press_color k s)))) = (0, 0)).
    { rewrite press_dash_grounded_counts; [exact Hpre|].
      rewrite press_pre_grounded, press_color_grounded. exact Hg. }
    injection Hd as Hj Hdc. rewrite Hj, Hdc.
    destruct (k =? key.SPACE); reflexivity.
  - apply update_rules_counts.
  - intros Hp He t. unfold on_update, bind.
    pose proof (update_rules_counts E t) as Hr.
    destruct (update_rules E t) as [[] t1|x t1]; simpl in *; [|exact Hr].
    rewrite He, Hp. exact Hr.
Qed.

Lemma key_press_resets_counters_when_grounded_witness :
  grounded Demo.env Demo.landed = true /\
  counts (player Demo.landed) = (2, 1) /\
  counts (player (press_pre Demo.env (press_color key.SPACE Demo.landed))) = (0, 0) /\
  counts (player (on_key_press Demo.env key.SPACE Demo.landed)) = (1, 0) /\
  counts (player (on_key_press Demo.env key.R Demo.landed)) = (0, 0).
Proof.
  split; [reflexivity|]. split; [reflexivity|].
  split; [|split].
  - exact (proj1 (key_press_resets_counters_when_grounded
                    Demo.env key.SPACE Demo.landed eq_refl)).
  - exact (proj1 (proj2 (proj2 (key_press_resets_counters_when_grounded
                                  Demo.env key.SPACE Demo.landed eq_refl)))).
  - exact (proj1 (proj2 (proj2 (key_press_resets_counters_when_grounded
                                  Demo.env key.R Demo.landed eq_refl)))).
Defined.

(** C2, as amended. In a frame in which the engine reports the player
    grounded, the counters are zero after the [# Pre] step of a key
    press, if one is delivered, before its dash and jump logic; the
    rules of the frame's [on_update] contain no reset and leave both
    counters as they were. *)
Theorem counters_reset_by_key_press_only E k s :
  grounded E s = true ->
  counts (player (press_pre E (press_color k s))) = (0, 0) /\
  counts (player (state_of (update_rules E s))) = counts (player s).
Proof.
  intros Hg. split.
  - rewrite press_pre_counts, press_color_grounded, Hg. reflexivity.
  - apply update_rules_counts.
Qed.

Lemma counters_reset_by_key_press_only_witness :
  grounded Demo.env Demo.landed = true /\
  counts (player (press_pre Demo.env (press_color key.LSHIFT Demo.landed))) = (0, 0) /\
  counts (player (state_of (update_rules Demo.env Demo.landed))) = (2, 1).
Proof.
  split; [reflexivity|].
  exact (counters_reset_by_key_press_only Demo.env key.LSHIFT Demo.landed eq_refl).
Defined.

(** C2 as stated fails: the player has landed with two jumps and one
    dash counted, no key is pressed, and the frame's update returns with
    both counters still in place. *)
Lemma grounded_frame_without_key_keeps_counters :
  grounded Demo.env Demo.landed = true /\
  raised (on_update Demo.env Demo.landed) = None /\
  counts (player (state_of (update_rules Demo.env Demo.landed))) = (2, 1) /\
  counts (player (state_of (on_update Demo.env Demo.landed))) = (2, 1).
Proof. repeat split; vm_compute; reflexivity. Qed.

(** ** Dashing *)

Lemma press_pre_position E s :
  position (player (press_pre E s)) = position (player s).
Proof. unfold press_pre. destruct (grounded E s); reflexivity. Qed.

(** C5, as amended. A dash press whose sweep trace reports an
    obstruction does nothing beyond the [# Pre] step of the event: the
    player's position is the one it had, and no dash is counted; the
    counters are those the [# Pre] step leaves, zero when the player is
    grounded and unchanged in the air. *)
Theorem blocked_dash_keeps_position E s :
  sweep_trace E (box (player s)) (DASH_DISTANCE E) 0%Q (level_geometry s) = true ->
  on_key_press E key.LSHIFT s = press_pre E s /\
  position (player (on_key_press E key.LSHIFT s)) = position (player s) /\
  counts (player (on_key_press E key.LSHIFT s)) =
    (if grounded E s then (0, 0) else counts (player s)).
Proof.
  intros Hsweep.
  assert (Heq : on_key_press E key.LSHIFT s = press_pre E s).
  { rewrite on_key_press_dash. unfold press_dash.
    rewrite press_pre_box, press_pre_geometry, Hsweep. reflexivity. }
  rewrite Heq. split; [reflexivity|]. split.
  - apply press_pre_position.
  - apply press_pre_counts.
Qed.

Lemma blocked_dash_keeps_position_witness :
  sweep_trace Demo.env (box (player Demo.facing_wall)) (DASH_DISTANCE Demo.env) 0%Q
    (level_geometry Demo.facing_wall) = true /\
  position (player (on_key_press Demo.env key.LSHIFT Demo.facing_wall)) = (60%Q, 32%Q) /\
  counts (player (on_key_press Demo.env key.LSHIFT Demo.facing_wall)) = (0, 0).
Proof.
  split; [reflexivity|].
  exact (proj2 (blocked_dash_keeps_position Demo.env Demo.facing_wall eq_refl)).
Defined.

(** C5 as stated fails: the player has landed after one jump and dashes
    against the red block; the trace reports the block, the position
    stays, and the jump counter goes from one to zero. *)
Lemma blocked_dash_resets_jump_count :
  grounded Demo.env Demo.facing_wall = true /\
  sweep_trace Demo.env (box (player Demo.facing_wall)) (DASH_DISTANCE Demo.env) 0%Q
    (level_geometry Demo.facing_wall) = true /\
  jump_count (player Demo.facing_wall) = 1 /\
  jump_count (player (on_key_press Demo.env key.LSHIFT Demo.facing_wall)) = 0.
Proof. repeat split; vm_compute; reflexivity. Qed.

Lemma do_dash_left E s :
  (p_left (player (do_dash E s))
   == p_left (player s) + 2 * DASH_DISTANCE E * direction (player s))%Q.
Proof. simpl. ring. Qed.

(** C6. A dash press with a clear sweep trace: on the ground, and in the
    air with the budget not yet used up, the player's left edge moves by
    twice [DASH_DISTANCE] times the facing direction and its bottom
    stays; the dash is counted in the air only, while on the ground the
    counter is at zero afterwards. In the air with the budget used up
    the press changes nothing. *)
Theorem clear_dash_travels_twice_the_distance E s :
  sweep_trace E (box (player s)) (DASH_DISTANCE E) 0%Q (level_geometry s) = false ->
  (grounded E s = true ->
     (p_left (player (on_key_press E key.LSHIFT s))
      == p_left (player s) + 2 * DASH_DISTANCE E * direction (player s))%Q /\
     p_bottom (player (on_key_press E key.LSHIFT s)) = p_bottom (player s) /\
     dash_count (player (on_key_press E key.LSHIFT s)) = 0) /\
  (grounded E s = false ->
   dash_count (player s) < DASH_COUNT E ->
     (p_left (player (on_key_press E key.LSHIFT s))
      == p_left (player s) + 2 * DASH_DISTANCE E * direction (player s))%Q /\
     p_bottom (player (on_key_press E key.LSHIFT s)) = p_bottom (player s) /\
     dash_count (player (on_key_press E key.LSHIFT s)) = dash_count (player s) + 1) /\
  (grounded E s = false ->
   DASH_COUNT E <= dash_count (player s) ->
     on_key_press E key.LSHIFT s = s).
Proof.
  intros Hsweep.
  rewrite on_key_press_dash. unfold press_dash.
  rewrite press_pre_box, press_pre_geometry, Hsweep, press_pre_grounded.
  change (65505 =? 65505) with true. cbv beta iota.
  split; [|split].
  - intros Hg. rewrite Hg. simpl negb. cbv iota.
    unfold press_pre. rewrite Hg.
    split; [exact (do_dash_left E _) | split; reflexivity].
  - intros Hg Hd. rewrite Hg. simpl negb. cbv iota.
    unfold press_pre. rewrite Hg.
    apply Z.ltb_lt in Hd. rewrite Hd.
    split; [exact (do_dash_left E _) | split; reflexivity].
  - intros Hg Hd. rewrite Hg. simpl negb. cbv iota.
    unfold press_pre. rewrite Hg.
    apply Z.ltb_ge in Hd. rewrite Hd. reflexivity.
Qed.

Lemma clear_dash_travels_twice_the_distance_witness :
  (sweep_trace Demo.env (box (player Demo.landed)) (DASH_DISTANCE Demo.env) 0%Q
     (level_geometry Demo.landed) = false /\
   grounded Demo.env Demo.landed = true) /\
  (p_left (player (on_key_press Demo.env key.LSHIFT Demo.landed)) == 200)%Q /\
  p_bottom (player (on_key_press Demo.env key.LSHIFT Demo.landed)) = 32%Q /\
  dash_count (player (on_key_press Demo.env key.LSHIFT Demo.landed)) = 0.
Proof.
  split; [split; reflexivity|].
  destruct (proj1 (clear_dash_travels_twice_the_distance Demo.env Demo.landed eq_refl)
              eq_refl) as (H1 & H2 & H3).
  split; [|split; [exact H2 | exact H3]].
  rewrite H1. reflexivity.
Defined.

(** ** Cycling the colour *)

Lemma press_dash_color E k s :
  str_color (player (press_dash E k s)) = str_color (player s).
Proof.
  unfold press_dash.
  destruct (k =? key.LSHIFT); [|reflexivity].
  destruct (negb (sweep_trace E _ _ _ _)); [|reflexivity].
  destruct (negb (grounded E s)); [|reflexivity].
  destruct (_ <? _); reflexivity.
Qed.

Lemma press_jump_color E k s :
  str_color (player (press_jump E k s)) = str_color (player s).
Proof.
  unfold press_jump. destruct (k =? key.SPACE); [|reflexivity].
  simpl. destruct (_ <=? _); reflexivity.
Qed.

Lemma press_move_color E k s :
  str_color (player (press_move E k s)) = str_color (player s).
Proof.
  unfold press_move.
  destruct ((k =? key.LEFT) || (k =? key.A));
    destruct ((k =? key.RIGHT) || (k =? key.D)); reflexivity.
Qed.

Lemma press_pre_color E s :
  str_color (player (press_pre E s)) = str_color (player s).
Proof. unfold press_pre. destruct (grounded E s); reflexivity. Qed.

(** One press of the cycle key moves the colour one place on. *)
Lemma cycle_key_color E s :
  str_color (player (on_key_press E key.E s)) = next_color (str_color (player s)).
Proof.
  unfold on_key_press.
  rewrite press_move_color, press_jump_color, press_dash_color, press_pre_color.
  reflexivity.
Qed.

Lemma cycle_keys_color E n : forall s,
  str_color (player (presses E (repeat key.E n) s)) =
  Nat.iter n next_color (str_color (player s)).
Proof.
  induction n as [|n IH]; intros s; [reflexivity|].
  change (presses E (repeat key.E (S n)) s)
    with (presses E (repeat key.E n) (on_key_press E key.E s)).
  rewrite IH, cycle_key_color. symmetry. apply Nat.iter_succ_r.
Qed.

(** C8. The cycle key takes the colour from white to red, to green, to
    blue and back to white; from any colour, four presses in a row bring
    it back, and one, two or three presses do not. *)
Theorem cycle_color_has_period_four E s :
  str_color (player (on_key_press E key.E s)) = next_color (str_color (player s)) /\
  (next_color white = red /\ next_color red = green /\
   next_color green = blue /\ next_color blue = white) /\
  str_color (player (presses E (repeat key.E 4) s)) = str_color (player s) /\
  str_color (player (presses E (repeat key.E 1) s)) <> str_color (player s) /\
  str_color (player (presses E (repeat key.E 2) s)) <> str_color (player s) /\
  str_color (player (presses E (repeat key.E 3) s)) <> str_color (player s).
Proof.
  split; [apply cycle_key_color|].
  split; [repeat split|].
  rewrite !cycle_keys_color.
  destruct (str_color (player s)); repeat split; simpl; discriminate || reflexivity.
Qed.

(** ** The camera *)

Lemma Qltb_lt x y : Qltb x y = true <-> (x < y)%Q.
Proof.
  unfold Qltb. rewrite negb_true_iff. split.
  - intros H. apply Qnot_le_lt. intros Hle.
    apply Qle_bool_iff in Hle. congruence.
  - intros H. destruct (Qle_bool y x) eqn:Hle; [|reflexivity].
    apply Qle_bool_iff in Hle. exfalso. exact (Qlt_not_le _ _ H Hle).
Qed.

Lemma Qltb_ge x y : Qltb x y = false <-> (y <= x)%Q.
Proof.
  unfold Qltb. rewrite negb_false_iff. apply Qle_bool_iff.
Qed.

(** [int] of a number that is an integer is that integer. *)
Lemma py_int_integer q z : (q == inject_Z z)%Q -> py_int q = z.
Proof.
  unfold Qeq, py_int. simpl. intros H.
  rewrite Z.mul_1_r in H. rewrite H. apply Z.quot_mul. discriminate.
Qed.

Lemma py_int_inject z : py_int (inject_Z z) = z.
Proof. apply py_int_integer. reflexivity. Qed.

Ltac split_Qltb :=
  repeat match goal with
         | |- context [Qltb ?a ?b] =>
             let H := fresh "Hcmp" in
             destruct (Qltb a b) eqn:H;
             [apply Qltb_lt in H | apply Qltb_ge in H]
         end.

Ltac camera_case :=
  unfold update_screen, scroll_right, scroll_left, scroll_down, scroll_up,
    left_overshoot, right_overshoot, top_overshoot, bottom_overshoot, p_right, p_top in *;
  simpl view_left; simpl view_bottom;
  split_Qltb; try reflexivity; try (exfalso; lra).

Section Camera.

Variable E : Env.
Variable s : GameState.



Lemma scroll_none_horizontal :
  (left_overshoot E s <= 0)%Q ->
  (right_overshoot E s <= 0)%Q ->
  view_left (update_screen E s) = view_left s.
Proof.
  intros H1 H2. rewrite <- (py_int_inject (view_left s)) at 1. camera_case.
Qed.



Lemma scroll_none_vertical :
  (top_overshoot E s <= 0)%Q ->
  (bottom_overshoot E s <= 0)%Q ->
  view_bottom (update_screen E s) = view_bottom s.
Proof.
  intros H1 H2. rewrite <- (py_int_inject (view_bottom s)) at 1. camera_case.
Qed.



End Camera.






(** * Further properties of the code *)

(** ** The palette and the block signature *)

Lemma to_int_sum r g b a :
  to_int r g b a = r * 16777216 + g * 65536 + b * 256 + a.
Proof. unfold to_int. rewrite !Z.shiftl_mul_pow2 by lia. reflexivity. Qed.

Lemma color_map_get_alphabet k : In (color_map_get color_map k) alphabet.
Proof.
  unfold color_map, color_map_get, alphabet.
  repeat match goal with
         | |- context [?x =? k] => destruct (x =? k)
         end; simpl; tauto.
Qed.

(** X1. On pixels whose four components are bytes, the palette is read
    component by component: a pixel gets one of the seven codes other
    than E exactly when it is that code's colour, so every other pixel,
    any half-transparent one included, is code E. *)
Theorem palette_reads_exact_colours r g b a code :
  0 <= r < 256 -> 0 <= g < 256 -> 0 <= b < 256 -> 0 <= a < 256 ->
  code = color_map_get color_map (to_int r g b a) ->
  (code = "W"%char <-> (r, g, b, a) = (255, 255, 255, 255)) /\
  (code = "R"%char <-> (r, g, b, a) = (255, 0, 0, 255)) /\
  (code = "G"%char <-> (r, g, b, a) = (0, 255, 0, 255)) /\
  (code = "B"%char <-> (r, g, b, a) = (0, 0, 255, 255)) /\
  (code = "L"%char <-> (r, g, b, a) = (0, 255, 255, 255)) /\
  (code = "P"%char <-> (r, g, b, a) = (255, 0, 255, 255)) /\
  (code = "D"%char <-> (r, g, b, a) = (0, 0, 0, 255)) /\
  In code alphabet.
Proof.
  intros Hr Hg Hb Ha Hcode.
  assert (Hin : In code alphabet) by (subst code; apply color_map_get_alphabet).
  subst code. revert Hin. rewrite to_int_sum.
  unfold color_map, color_map_get.
  repeat match goal with
         | |- context [?x =? ?k] => destruct (Z.eqb_spec x k)
         end;
    intros Hin;
    (repeat split; try exact Hin;
     match goal with
     | |- _ = _ -> _ =>
         let H := fresh in
         intros H; first [discriminate H
                         | injection H; intros; subst; lia
                         | f_equal; [f_equal; [f_equal|]|]; lia]
     end).
Qed.

Lemma palette_reads_exact_colours_witness :
  (0 <= 255 < 256 /\ 0 <= 0 < 256) /\
  color_map_get color_map (to_int 255 0 0 255) = "R"%char /\
  color_map_get color_map (to_int 255 0 0 254) <> "R"%char.
Proof.
  assert (H255 : 0 <= 255 < 256) by lia.
  assert (H254 : 0 <= 254 < 256) by lia.
  assert (H0 : 0 <= 0 < 256) by lia.
  split; [split; assumption|]. split.
  - apply (proj1 (proj2 (palette_reads_exact_colours 255 0 0 255 _
                           H255 H0 H0 H255 eq_refl))).
    reflexivity.
  - intros H.
    apply (proj1 (proj2 (palette_reads_exact_colours 255 0 0 254 _
                           H255 H0 H0 H254 eq_refl))) in H.
    discriminate H.
Defined.

(** What [range] yields lies between its bounds, on the side of [start]. *)
Lemma py_range_up a b st v :
  0 < st -> In v (py_range a b st) ->
  exists k, 0 <= k /\ v = a + st * k /\ v < b.
Proof.
  intros Hst Hin. unfold py_range in Hin.
  destruct (Z.ltb_spec 0 st) as [_|]; [|lia].
  apply in_map_iff in Hin. destruct Hin as (n & Hv & Hn).
  apply in_seq in Hn. exists (Z.of_nat n). split; [lia|]. split; [lia|].
  subst v.
  assert (Hq : Z.of_nat n < (b - a + st - 1) / st) by lia.
  pose proof (Z.mul_div_le (b - a + st - 1) st Hst). nia.
Qed.

Lemma py_range_down a b st v :
  st < 0 -> In v (py_range a b st) ->
  exists k, 0 <= k /\ v = a + st * k /\ b < v.
Proof.
  intros Hst Hin. unfold py_range in Hin.
  destruct (Z.ltb_spec 0 st) as [|_]; [lia|].
  destruct (Z.ltb_spec st 0) as [_|]; [|lia].
  apply in_map_iff in Hin. destruct Hin as (n & Hv & Hn).
  apply in_seq in Hn. exists (Z.of_nat n). split; [lia|]. split; [lia|].
  subst v.
  assert (Hq : Z.of_nat n < (a - b - st - 1) / (- st)) by lia.
  pose proof (Z.mul_div_le (a - b - st - 1) (- st) ltac:(lia)). nia.
Qed.

Lemma py_range_unit_length a n :
  0 <= n -> List.length (py_range a (a + n) 1) = Z.to_nat n.
Proof.
  intros Hn. unfold py_range. change (0 <? 1) with true. cbv iota.
  rewrite length_map, length_seq. rewrite Z.div_1_r. f_equal. lia.
Qed.

Lemma block_pixels_length x y : List.length (block_pixels x y) = 9%nat.
Proof.
  unfold block_pixels.
  rewrite flat_map_constant_length with (c := 3%nat).
  - replace (y + 1) with (y - 2 + 3) by lia.
    rewrite py_range_unit_length by lia. reflexivity.
  - intros yi _. rewrite length_map. rewrite py_range_unit_length by lia. reflexivity.
Qed.

(** The pixels of the block at [(x, y)] are the three columns from [x]
    and the three rows up to [y]. *)
Lemma block_pixels_in x y xi yi :
  In (xi, yi) (block_pixels x y) -> x <= xi < x + 3 /\ y - 2 <= yi < y + 1.
Proof.
  unfold block_pixels. intros H. apply in_flat_map in H.
  destruct H as (y' & Hy & Hx). apply in_map_iff in Hx.
  destruct Hx as (x' & Heq & Hx). inversion Heq; subst.
  apply py_range_up in Hy; [|lia]. apply py_range_up in Hx; [|lia].
  destruct Hy as (k & ? & ? & ?). destruct Hx as (k' & ? & ? & ?). lia.
Qed.

Lemma join_colors_shape img ps : forall s,
  join_colors img ps = inr s ->
  String.length s = List.length ps /\
  Forall (fun c => In c alphabet) (string_chars s).
Proof.
  induction ps as [|[xi yi] ps IH]; intros s H; simpl in H.
  - inversion H. split; [reflexivity | constructor].
  - destruct (img_pixels img xi yi) as [[[[r g] b] a]|]; [|discriminate].
    destruct (join_colors img ps) as [e|rest]; [discriminate|].
    inversion H; subst. destruct (IH rest eq_refl) as [Hl Hf].
    split; simpl; [f_equal; exact Hl|].
    constructor; [apply color_map_get_alphabet | exact Hf].
Qed.

Lemma join_colors_defined img ps :
  (forall xi yi, In (xi, yi) ps -> img_pixels img xi yi <> None) ->
  exists s, join_colors img ps = inr s.
Proof.
  induction ps as [|[xi yi] ps IH]; intros H; simpl.
  - eexists; reflexivity.
  - destruct (img_pixels img xi yi) as [[[[r g] b] a]|] eqn:Hp.
    + destruct IH as [s Hs]; [intros; apply H; right; assumption|].
      rewrite Hs. eexists; reflexivity.
    + exfalso. apply (H xi yi); [left; reflexivity | exact Hp].
Qed.

(** X2. The signature of a block, when its nine pixel reads succeed, is
    a string of exactly nine codes of the palette; it fails only on a
    pixel read that raises, and then with that pixel's error. *)
Theorem signature_is_nine_codes img x y :
  (forall s, signature img x y = inr s ->
     String.length s = 9%nat /\ Forall (fun c => In c alphabet) (string_chars s)) /\
  (forall e, signature img x y = inl e ->
     exists xi yi, e = PixelError xi yi /\ img_pixels img xi yi = None /\
                   x <= xi < x + 3 /\ y - 2 <= yi < y + 1).
Proof.
  unfold signature. split.
  - intros s H. apply join_colors_shape in H.
    rewrite block_pixels_length in H. exact H.
  - intros e.
    assert (G : forall ps, join_colors img ps = inl e ->
              exists xi yi, e = PixelError xi yi /\ img_pixels img xi yi = None /\
                            In (xi, yi) ps).
    { induction ps as [|[xi yi] ps IH]; simpl; [discriminate|].
      destruct (img_pixels img xi yi) as [[[[r g] b] a]|] eqn:Hp.
      - destruct (join_colors img ps) as [e'|rest]; [|discriminate].
        intros H. inversion H; subst.
        destruct (IH eq_refl) as (xi' & yi' & ? & ? & ?).
        exists xi', yi'. auto.
      - intros H. inversion H; subst. exists xi, yi. auto. }
    intros H. destruct (G _ H) as (xi & yi & He & Hp & Hin).
    exists xi, yi. split; [exact He|]. split; [exact Hp|].
    apply block_pixels_in. exact Hin.
Qed.

Lemma signature_is_nine_codes_witness :
  signature Demo.small_level 0 2 = inr "LLLLLLLLL"%string /\
  String.length "LLLLLLLLL" = 9%nat /\
  signature Demo.small_level 9 2 = inl (PixelError 9 0) /\
  img_pixels Demo.small_level 9 0 = None.
Proof.
  assert (H1 : signature Demo.small_level 0 2 = inr "LLLLLLLLL"%string) by reflexivity.
  assert (H2 : signature Demo.small_level 9 2 = inl (PixelError 9 0)) by reflexivity.
  split; [exact H1|]. split.
  - exact (proj1 (proj1 (signature_is_nine_codes Demo.small_level 0 2) _ H1)).
  - split; [exact H2 | reflexivity].
Defined.

(** ** What [load_level] returns *)

Lemma load_level_true_inv E id s s' :
  load_level E id s = Returned true s' ->
  exists img s1 st en,
    open_image E id = Some img /\
    scan E img (set_level_data empty_level s) = Returned tt s1 /\
    start s1 = Some st /\ end_ s1 = Some en /\ s' = respawn st s1.
Proof.
  unfold load_level. destruct (open_image E id) as [img|]; [|discriminate].
  unfold bind at 1. unfold modify at 1. unfold bind at 1.
  destruct (scan E img _) as [[] s1|e s1] eqn:Hsc; [|discriminate].
  unfold bind, get.
  destruct (start s1) as [st|] eqn:Hs; [|discriminate].
  destruct (end_ s1) as [en|] eqn:He; [|discriminate].
  unfold move_to_start. rewrite Hs. simpl. intros H. inversion H.
  exists img, s1, st, en. repeat split; assumption || reflexivity.
Qed.

Lemma load_level_true_intro E id img s s1 st en :
  open_image E id = Some img ->
  scan E img (set_level_data empty_level s) = Returned tt s1 ->
  start s1 = Some st -> end_ s1 = Some en ->
  load_level E id s = Returned true (respawn st s1).
Proof.
  intros Ho Hsc Hs He. unfold load_level. rewrite Ho.
  unfold bind at 1. unfold modify at 1. unfold bind at 1. rewrite Hsc.
  unfold bind, get. rewrite Hs, He. unfold move_to_start. rewrite Hs. reflexivity.
Qed.

(** X3. [load_level] returns [False] exactly when the image cannot be
    opened, and then the session is untouched. When it returns [True],
    both markers are set and the session differs from the one before,
    outside the level fields, only by the player's position, which is
    the start marker's left and bottom. *)
Theorem load_level_result E id s b s' :
  load_level E id s = Returned b s' ->
  (b = false <-> open_image E id = None) /\
  (b = false -> s' = s) /\
  (b = true ->
     exists st en,
       start s' = Some st /\ end_ s' = Some en /\
       others s' = others (respawn st s)).
Proof.
  intros H. destruct b.
  - destruct (load_level_true_inv E id s s' H)
      as (img & s1 & st & en & Ho & Hsc & Hs & He & ->).
    split; [split; [discriminate | rewrite Ho; discriminate]|].
    split; [discriminate|]. intros _. exists st, en.
    split; [exact Hs|]. split; [exact He|].
    pose proof (level_only_others (scan E img) (set_level_data empty_level s)
                  (level_only_scan E img)) as Hoth.
    rewrite Hsc in Hoth. simpl in Hoth.
    unfold others in *. simpl. inversion Hoth. reflexivity.
  - assert (Ho : open_image E id = None).
    { destruct (open_image E id) as [img|] eqn:Ho; [|reflexivity].
      exfalso. revert H. unfold load_level. rewrite Ho.
      unfold bind at 1. unfold modify at 1. unfold bind at 1.
      destruct (scan E img _) as [[] s1|e s1]; [|discriminate].
      unfold bind, get. destruct (start s1) eqn:Hs; [|discriminate].
      destruct (end_ s1); [|discriminate].
      unfold move_to_start. rewrite Hs. discriminate. }
    split; [split; auto|]. split; [|discriminate].
    intros _. rewrite (load_level_not_found E id s Ho) in H. inversion H. reflexivity.
Qed.

Lemma load_level_result_witness :
  load_level Demo.env0 0 (Demo.at_end 7)
    = Returned true (state_of (load_level Demo.env0 0 (Demo.at_end 7))) /\
  start (state_of (load_level Demo.env0 0 (Demo.at_end 7)))
    = Some (Demo.tile_at 5 0 32) /\
  position (player (state_of (load_level Demo.env0 0 (Demo.at_end 7)))) = (0%Q, 32%Q) /\
  level (state_of (load_level Demo.env0 0 (Demo.at_end 7))) = 7.
Proof.
  assert (H : load_level Demo.env0 0 (Demo.at_end 7)
              = Returned true (state_of (load_level Demo.env0 0 (Demo.at_end 7))))
    by (vm_compute; reflexivity).
  split; [exact H|].
  destruct (proj2 (proj2 (load_level_result Demo.env0 0 _ _ _ H)) eq_refl)
    as (st & en & Hs & He & Ho).
  split; [vm_compute; reflexivity|]. split; vm_compute; reflexivity.
Defined.

(** X4. A decode that succeeds does not depend on the level that was
    loaded before: started from any other session, it succeeds too and
    yields the same level fields. *)
Theorem load_level_success_replaces_everything E id s s' :
  load_level E id s = Returned true s' ->
  forall t, exists t',
    load_level E id t = Returned true t' /\
    level_data t' = level_data s'.
Proof.
  intros H t.
  destruct (load_level_true_inv E id s s' H)
    as (img & s1 & st & en & Ho & Hsc & Hs & He & ->).
  exists (respawn st (graft t s1)). split; [|reflexivity].
  apply (load_level_true_intro E id img t (graft t s1) st en Ho); [|exact Hs|exact He].
  change (set_level_data empty_level t)
    with (graft t (set_level_data empty_level s)).
  rewrite (level_only_scan E img), Hsc. reflexivity.
Qed.

Lemma load_level_success_replaces_everything_witness :
  load_level Demo.env0 0 (Demo.at_end 7)
    = Returned true (state_of (load_level Demo.env0 0 (Demo.at_end 7))) /\
  exists t',
    load_level Demo.env0 0 Demo.at_wall = Returned true t' /\
    level_data t' = level_data (state_of (load_level Demo.env0 0 (Demo.at_end 7))).
Proof.
  assert (H : load_level Demo.env0 0 (Demo.at_end 7)
              = Returned true (state_of (load_level Demo.env0 0 (Demo.at_end 7))))
    by (vm_compute; reflexivity).
  split; [exact H|].
  exact (load_level_success_replaces_everything Demo.env0 0 _ _ H Demo.at_wall).
Defined.

(** ** What the scan puts where *)

Lemma steps_ret R {A} (a : A) : (forall s, R s s) -> steps R (ret a).
Proof. intros Hr s. apply Hr. Qed.

Lemma steps_raise R {A} (e : Exn) : (forall s, R s s) -> steps R (@raise A e).
Proof. intros Hr s. apply Hr. Qed.

Lemma steps_modify R f : (forall s, R s (f s)) -> steps R (modify f).
Proof. intros H s. apply H. Qed.

Lemma steps_bind R {A B} (m : M A) (k : A -> M B) :
  (forall a b c, R a b -> R b c -> R a c) ->
  steps R m -> (forall a, steps R (k a)) -> steps R (bind m k).
Proof.
  intros Ht Hm Hk s. unfold bind. specialize (Hm s).
  destruct (m s) as [a s1|e s1]; simpl in *; [|exact Hm].
  eapply Ht; [exact Hm | apply Hk].
Qed.

Lemma steps_if R {A} (b : bool) (m1 m2 : M A) :
  steps R m1 -> steps R m2 -> steps R (if b then m1 else m2).
Proof. destruct b; auto. Qed.

(** Names: a hazard is solid, a checkpoint and a marker are not. *)
Lemma danger_name_is_solid name :
  startswith name "danger" = true ->
  startswith_any name ["block"; "danger"]%string = true.
Proof. intros H. simpl. rewrite H. apply orb_true_r. Qed.

Lemma save_name_is_not_solid name :
  startswith name "save" = true ->
  startswith_any name ["block"; "danger"]%string = false.
Proof.
  unfold startswith_any, startswith.
  destruct name as [|c n]; cbn [String.prefix existsb]; [intros H; discriminate H|].
  destruct (ascii_dec "s" c) as [<-|]; [|intros H; discriminate H].
  intros _. reflexivity.
Qed.

Lemma level_name_is_not_solid name :
  startswith name "level" = true ->
  startswith_any name ["block"; "danger"]%string = false.
Proof.
  unfold startswith_any, startswith.
  destruct name as [|c n]; cbn [String.prefix existsb]; [intros H; discriminate H|].
  destruct (ascii_dec "l" c) as [<-|]; [|intros H; discriminate H].
  intros _. reflexivity.
Qed.

Lemma cg_append_get g key sp g' c :
  cg_append g key sp = Some g' ->
  incl (cg_get g' c) (sp :: cg_get g c).
Proof.
  unfold cg_append.
  repeat match goal with
         | |- context [String.eqb key ?k] => destruct (String.eqb key k)
         end;
    intros H; inversion H; subst; clear H;
    destruct c; simpl; intros x Hx;
    try (apply in_app_iff in Hx; simpl in Hx); simpl; tauto.
Qed.

Section Sorting.

Variable sp : Sprite.
Variable solid : bool.

Lemma sorted_with_either s :
  sorted_with sp solid s -> In sp (level_geometry s ++ level_objects s).
Proof.
  intros [_ Hin]. apply in_app_iff. destruct solid; auto.
Qed.

Lemma sorted_colored key :
  steps (fun s s' => sorted_with sp solid s -> sorted_with sp solid s')
    (fun s => match cg_append (colored_geometry s) key sp with
              | Some g => Returned tt (set_colored g s)
              | None => Raised (KeyError key) s
              end).
Proof.
  intros s Hs. destruct (cg_append (colored_geometry s) key sp) as [g|] eqn:Hg;
    simpl; [|exact Hs].
  pose proof (sorted_with_either s Hs) as Hsp.
  destruct Hs as [(H1 & H2 & H3 & H4 & H5) Hin].
  split; [|exact Hin]. repeat split; try assumption.
  intros c x Hx. apply (cg_append_get _ _ _ _ c Hg) in Hx.
  destruct Hx as [<-|Hx]; [exact Hsp | apply (H5 c x Hx)].
Qed.

Lemma sorted_save :
  solid = false ->
  steps (fun s s' => sorted_with sp solid s -> sorted_with sp solid s') (modify (add_save sp)).
Proof.
  intros Hsol s [(H1 & H2 & H3 & H4 & H5) Hin].
  split; [|exact Hin]. rewrite Hsol in Hin. repeat split; try assumption. simpl.
  apply incl_app; [exact H2|]. intros x [<-|[]]. exact Hin.
Qed.

Lemma sorted_danger :
  solid = true ->
  steps (fun s s' => sorted_with sp solid s -> sorted_with sp solid s') (modify (add_danger sp)).
Proof.
  intros Hsol s [(H1 & H2 & H3 & H4 & H5) Hin].
  split; [|exact Hin]. rewrite Hsol in Hin. repeat split; try assumption. simpl.
  apply incl_app; [exact H1|]. intros x [<-|[]]. exact Hin.
Qed.

Lemma sorted_start :
  solid = false ->
  steps (fun s s' => sorted_with sp solid s -> sorted_with sp solid s') (modify (set_start (Some sp))).
Proof.
  intros Hsol s [(H1 & H2 & H3 & H4 & H5) Hin].
  split; [|exact Hin]. rewrite Hsol in Hin. repeat split; try assumption. simpl.
  intros x [<-|[]]. exact Hin.
Qed.

Lemma sorted_end :
  solid = false ->
  steps (fun s s' => sorted_with sp solid s -> sorted_with sp solid s') (modify (set_end (Some sp))).
Proof.
  intros Hsol s [(H1 & H2 & H3 & H4 & H5) Hin].
  split; [|exact Hin]. rewrite Hsol in Hin. repeat split; try assumption. simpl.
  intros x [<-|[]]. exact Hin.
Qed.

End Sorting.

Lemma sorted_with_trans sp solid (a b c : GameState) :
  (sorted_with sp solid a -> sorted_with sp solid b) ->
  (sorted_with sp solid b -> sorted_with sp solid c) ->
  sorted_with sp solid a -> sorted_with sp solid c.
Proof. auto. Qed.

(** Lines 131-144, once the sprite is in [level_geometry] or in
    [level_objects]. *)
Lemma place_rest_sorted sp name :
  steps (fun s s' => sorted_with sp (startswith_any name ["block"; "danger"]%string) s ->
                     sorted_with sp (startswith_any name ["block"; "danger"]%string) s')
    ((if endswith_any name ["white"; "red"; "green"; "blue"]%string
      then fun s =>
             match cg_append (colored_geometry s) (rsplit_last name) sp with
             | Some g => Returned tt (set_colored g s)
             | None => Raised (KeyError (rsplit_last name)) s
             end
      else ret tt) ;;;
     (if startswith name "save" then modify (add_save sp) else ret tt) ;;;
     (if startswith name "danger" then modify (add_danger sp) else ret tt) ;;;
     (if startswith name "level"
      then if endswith name "start"
           then modify (set_start (Some sp))
           else modify (set_end (Some sp))
      else ret tt)).
Proof.
  repeat (apply steps_bind; [apply sorted_with_trans | | intros _]).
  - apply steps_if; [apply sorted_colored | apply steps_ret; auto].
  - destruct (startswith name "save") eqn:Hn; [|apply steps_ret; auto].
    apply sorted_save, save_name_is_not_solid, Hn.
  - destruct (startswith name "danger") eqn:Hn; [|apply steps_ret; auto].
    apply sorted_danger, danger_name_is_solid, Hn.
  - destruct (startswith name "level") eqn:Hn; [|apply steps_ret; auto].
    apply steps_if;
      [apply sorted_start | apply sorted_end]; apply level_name_is_not_solid, Hn.
Qed.

Lemma place_keeps_sorted tile l b s :
  sorted_level s -> sorted_level (state_of (place tile l b s)).
Proof.
  intros (H1 & H2 & H3 & H4 & H5). unfold place.
  set (sp := {| sp_texture := tile_texture tile; sp_left := l; sp_bottom := b |}).
  set (name := tile_name tile).
  pose proof (place_rest_sorted sp name) as Hrest.
  unfold bind at 1.
  destruct (startswith_any name ["block"; "danger"]%string).
  - apply (Hrest (add_geometry sp s)). split; [|simpl; apply in_app_iff; simpl; auto].
    repeat split; simpl; try assumption.
    + apply incl_appl, H1.
    + intros c x Hx. apply H5 in Hx. apply in_app_iff in Hx.
      rewrite !in_app_iff. tauto.
  - apply (Hrest (add_object sp s)). split; [|simpl; apply in_app_iff; simpl; auto].
    repeat split; simpl; try assumption.
    + apply incl_appl, H2.
    + apply incl_appl, H3.
    + apply incl_appl, H4.
    + intros c x Hx. apply H5 in Hx. apply in_app_iff in Hx.
      rewrite !in_app_iff. tauto.
Qed.

Lemma scan_row_keeps_sorted E img y xs : forall l b s,
  sorted_level s -> sorted_level (state_of (scan_row E img y xs l b s)).
Proof.
  induction xs as [|x xs IH]; intros l b s Hs; simpl; [exact Hs|].
  destruct (signature img x y) as [e|colors]; [exact Hs|].
  unfold bind.
  destruct (tiles E colors) as [tile|].
  - pose proof (place_keeps_sorted tile l b s Hs) as Hp.
    destruct (place tile l b s) as [[] s1|e s1]; simpl in *; [apply IH, Hp | exact Hp].
  - simpl. apply IH, Hs.
Qed.

Lemma scan_rows_keeps_sorted E img xs ys : forall b s,
  sorted_level s -> sorted_level (state_of (scan_rows E img ys xs b s)).
Proof.
  induction ys as [|y ys IH]; intros b s Hs; simpl; [exact Hs|].
  unfold bind.
  pose proof (scan_row_keeps_sorted E img y xs 0%Q b s Hs) as Hr.
  destruct (scan_row E img y xs 0%Q b s) as [[] s1|e s1]; simpl in *;
    [apply IH, Hr | exact Hr].
Qed.

Lemma scan_keeps_sorted E img s :
  sorted_level s -> sorted_level (state_of (scan E img s)).
Proof. apply scan_rows_keeps_sorted. Qed.

(** X5. However [load_level] ends once the image is open, the level it
    leaves in the session is sorted: every hazard is also in
    [level_geometry], every checkpoint and both markers are in
    [level_objects], and every coloured tile is in one of the two. *)
Theorem load_level_sorts_tiles E id img s :
  open_image E id = Some img ->
  sorted_level (state_of (load_level E id s)).
Proof.
  intros Ho. unfold load_level. rewrite Ho.
  unfold bind at 1. unfold modify at 1. unfold bind at 1.
  assert (H0 : sorted_level (set_level_data empty_level s)).
  { split; [|split; [|split; [|split]]]; simpl.
    1-4: intros x Hx; destruct Hx.
    intros c x Hx. destruct c; destruct Hx. }
  pose proof (scan_keeps_sorted E img _ H0) as Hsc.
  destruct (scan E img (set_level_data empty_level s)) as [[] s1|e s1];
    simpl in *; [|exact Hsc].
  unfold bind, get.
  destruct (start s1) as [st|] eqn:Hs; [|exact Hsc].
  destruct (end_ s1); [|exact Hsc].
  unfold move_to_start. rewrite Hs. exact Hsc.
Qed.

Lemma load_level_sorts_tiles_witness :
  open_image Demo.env0 0 = Some Demo.small_level /\
  sorted_level (state_of (load_level Demo.env0 0 (Demo.at_end 7))) /\
  start (state_of (load_level Demo.env0 0 (Demo.at_end 7)))
    = Some (Demo.tile_at 5 0 32) /\
  In (Demo.tile_at 5 0 32)
     (level_objects (state_of (load_level Demo.env0 0 (Demo.at_end 7)))).
Proof.
  split; [reflexivity|].
  pose proof (load_level_sorts_tiles Demo.env0 0 Demo.small_level (Demo.at_end 7)
                eq_refl) as H.
  split; [exact H|]. split; [vm_compute; reflexivity|].
  destruct H as (_ & _ & H3 & _).
  apply H3. vm_compute. left. reflexivity.
Defined.

(** *** Where the tiles are put *)

Ltac sprites_incl :=
  let x := fresh "x" in
  let Hx := fresh "Hx" in
  intros x Hx; unfold all_sprites in *; simpl in *;
  rewrite ?in_app_iff in *; simpl in *; rewrite ?in_app_iff in *; simpl in *;
  tauto.

Lemma cg_append_sprites s key sp g :
  cg_append (colored_geometry s) key sp = Some g ->
  incl (all_sprites (set_colored g s)) (sp :: all_sprites s).
Proof.
  unfold cg_append.
  repeat match goal with
         | |- context [String.eqb key ?k] => destruct (String.eqb key k)
         end;
    intros H; inversion H; subst; clear H; sprites_incl.
Qed.

(** Placing a tile adds its sprite and nothing else. *)
Lemma place_adds_one tile l b :
  steps (fun s s' =>
           incl (all_sprites s')
                ({| sp_texture := tile_texture tile; sp_left := l; sp_bottom := b |}
                 :: all_sprites s))
    (place tile l b).
Proof.
  unfold place.
  set (sp := {| sp_texture := tile_texture tile; sp_left := l; sp_bottom := b |}).
  assert (Ht : forall a b c : GameState,
             incl (all_sprites b) (sp :: all_sprites a) ->
             incl (all_sprites c) (sp :: all_sprites b) ->
             incl (all_sprites c) (sp :: all_sprites a)).
  { intros a b' c H1 H2 x Hx. apply H2 in Hx. destruct Hx as [<-|Hx];
      [left; reflexivity | apply H1, Hx]. }
  assert (Hr : forall a : GameState, incl (all_sprites a) (sp :: all_sprites a)).
  { intros a x Hx. right. exact Hx. }
  repeat (apply steps_bind; [exact Ht | | intros _]);
    repeat apply steps_if;
    try (apply steps_ret; exact Hr);
    try (apply steps_modify; intros s; sprites_incl).
  intros s. destruct (cg_append (colored_geometry s) _ sp) as [g|] eqn:Hg; simpl.
  - apply (cg_append_sprites s _ sp g Hg).
  - apply Hr.
Qed.

Section Grid.

Variable E : Env.
Variable img : Image.
Variables cols rows : nat.

Lemma next_on_grid (q : Q) (i : nat) :
  (q == inject_Z (Z.of_nat i) * TEXTURE_SIZE E)%Q ->
  (q + TEXTURE_SIZE E == inject_Z (Z.of_nat (S i)) * TEXTURE_SIZE E)%Q.
Proof.
  intros H. rewrite Nat2Z.inj_succ. unfold Z.succ. rewrite inject_Z_plus, H.
  change (inject_Z 1) with 1%Q. ring.
Qed.

Lemma scan_row_on_grid y j b :
  (j < rows)%nat ->
  (b == inject_Z (Z.of_nat j) * TEXTURE_SIZE E)%Q ->
  forall xs i l s,
    (i + List.length xs <= cols)%nat ->
    (l == inject_Z (Z.of_nat i) * TEXTURE_SIZE E)%Q ->
    Forall (on_grid E cols rows) (all_sprites s) ->
    Forall (on_grid E cols rows) (all_sprites (state_of (scan_row E img y xs l b s))).
Proof.
  intros Hj Hb. induction xs as [|x xs IH]; intros i l s Hi Hl Hs; simpl; [exact Hs|].
  destruct (signature img x y) as [e|colors]; [exact Hs|].
  simpl in Hi. unfold bind.
  assert (Hnext : forall s1, Forall (on_grid E cols rows) (all_sprites s1) ->
            Forall (on_grid E cols rows)
              (all_sprites (state_of (scan_row E img y xs (l + TEXTURE_SIZE E)%Q b s1)))).
  { intros s1 H1. apply (IH (S i)); [lia | apply next_on_grid, Hl | exact H1]. }
  destruct (tiles E colors) as [tile|]; [|apply Hnext, Hs].
  assert (Hp : Forall (on_grid E cols rows) (all_sprites (state_of (place tile l b s)))).
  { apply Forall_forall. intros sp Hsp. apply (place_adds_one tile l b s) in Hsp.
    destruct Hsp as [<-|Hsp].
    - exists i, j. simpl. repeat split; [lia | exact Hj | exact Hl | exact Hb].
    - revert sp Hsp. apply Forall_forall. exact Hs. }
  destruct (place tile l b s) as [[] s1|e s1]; simpl in *; [apply Hnext, Hp | exact Hp].
Qed.

Lemma scan_rows_on_grid xs :
  (List.length xs <= cols)%nat ->
  forall ys j b s,
    (j + List.length ys <= rows)%nat ->
    (b == inject_Z (Z.of_nat j) * TEXTURE_SIZE E)%Q ->
    Forall (on_grid E cols rows) (all_sprites s) ->
    Forall (on_grid E cols rows) (all_sprites (state_of (scan_rows E img ys xs b s))).
Proof.
  intros Hxs. induction ys as [|y ys IH]; intros j b s Hj Hb Hs; simpl; [exact Hs|].
  simpl in Hj. unfold bind.
  assert (Hr : Forall (on_grid E cols rows)
                 (all_sprites (state_of (scan_row E img y xs 0%Q b s)))).
  { apply (scan_row_on_grid y j b ltac:(lia) Hb xs O); [lia | | exact Hs].
    simpl. ring. }
  destruct (scan_row E img y xs 0%Q b s) as [[] s1|e s1]; simpl in *; [|exact Hr].
  apply (IH (S j)); [lia | apply next_on_grid, Hb | exact Hr].
Qed.

End Grid.

(** X6. Every sprite that [load_level] leaves in the session, once the
    image is open, sits on the grid of tiles: its left is a column
    index times [TEXTURE_SIZE] and its bottom a row index times
    [TEXTURE_SIZE], with the column below the number of block columns of
    the image and the row below its number of block rows. *)
Theorem load_level_places_on_grid E id img s :
  open_image E id = Some img ->
  Forall (on_grid E (block_columns img) (block_rows img))
         (all_sprites (state_of (load_level E id s))).
Proof.
  intros Ho. unfold load_level. rewrite Ho.
  unfold bind at 1. unfold modify at 1. unfold bind at 1.
  assert (Hsc : Forall (on_grid E (block_columns img) (block_rows img))
                  (all_sprites (state_of (scan E img (set_level_data empty_level s))))).
  { unfold scan.
    apply (scan_rows_on_grid E img (block_columns img) (block_rows img) _
             (le_n _) _ O 0%Q).
    - apply le_n.
    - simpl. ring.
    - constructor. }
  destruct (scan E img (set_level_data empty_level s)) as [[] s1|e s1];
    simpl in *; [|exact Hsc].
  unfold bind, get.
  destruct (start s1) as [st|] eqn:Hs; [|exact Hsc].
  destruct (end_ s1); [|exact Hsc].
  unfold move_to_start. rewrite Hs. exact Hsc.
Qed.

Lemma load_level_places_on_grid_witness :
  open_image Demo.env0 0 = Some Demo.small_level /\
  block_columns Demo.small_level = 3%nat /\
  block_rows Demo.small_level = 2%nat /\
  end_ (state_of (load_level Demo.env0 0 (Demo.at_end 7))) = Some (Demo.tile_at 6 64 32) /\
  on_grid Demo.env0 3 2 (Demo.tile_at 6 64 32).
Proof.
  split; [reflexivity|]. split; [reflexivity|]. split; [reflexivity|].
  split; [vm_compute; reflexivity|].
  pose proof (load_level_places_on_grid Demo.env0 0 Demo.small_level (Demo.at_end 7)
                eq_refl) as H.
  rewrite Forall_forall in H. apply H.
  vm_compute. do 4 right. left. reflexivity.
Defined.

(** *** Images that decode to nothing, images that decode without error *)

Lemma scan_row_unmatched E img y : forall xs l b s,
  (forall x, In x xs ->
     exists sig, signature img x y = inr sig /\ tiles E sig = None) ->
  scan_row E img y xs l b s = Returned tt s.
Proof.
  induction xs as [|x xs IH]; intros l b s H; simpl; [reflexivity|].
  destruct (H x (or_introl eq_refl)) as (sig & Hsig & Ht).
  rewrite Hsig, Ht. unfold bind. simpl. apply IH.
  intros x' Hx'. apply H. right. exact Hx'.
Qed.

Lemma scan_rows_unmatched E img xs : forall ys b s,
  (forall x y, In x xs -> In y ys ->
     exists sig, signature img x y = inr sig /\ tiles E sig = None) ->
  scan_rows E img ys xs b s = Returned tt s.
Proof.
  induction ys as [|y ys IH]; intros b s H; simpl; [reflexivity|].
  unfold bind. rewrite scan_row_unmatched.
  - apply IH. intros x y' Hx Hy. apply H; [exact Hx | right; exact Hy].
  - intros x Hx. apply H; [exact Hx | left; reflexivity].
Qed.

(** X7. An image none of whose blocks has its signature in the catalog
    (a blank image, or one with no block at all) decodes to the empty
    level and then fails: [load_level] raises "Start is not set." and
    leaves the session with no geometry, no decor, no hazards, no
    checkpoints and no markers. *)
Theorem unmatched_image_empties_the_level E id img s :
  open_image E id = Some img ->
  (forall x y,
     In x (py_range 0 (img_w img) 3) ->
     In y (py_range (img_h img - 1) (-1) (-3)) ->
     exists sig, signature img x y = inr sig /\ tiles E sig = None) ->
  load_level E id s =
  Raised (RuntimeError "Start is not set.") (set_level_data empty_level s).
Proof.
  intros Ho H. unfold load_level. rewrite Ho.
  unfold bind at 1. unfold modify at 1. unfold bind at 1.
  unfold scan. rewrite (scan_rows_unmatched E img _ _ _ _ H). reflexivity.
Qed.

Lemma place_returns tile l b s :
  (endswith_any (tile_name tile) ["white"; "red"; "green"; "blue"]%string = true ->
   In (rsplit_last (tile_name tile)) ["white"; "red"; "green"; "blue"]%string) ->
  exists s', place tile l b s = Returned tt s'.
Proof.
  intros Hname. unfold place.
  set (sp := {| sp_texture := tile_texture tile; sp_left := l; sp_bottom := b |}).
  set (name := tile_name tile) in *.
  unfold bind at 1.
  set (s1 := state_of ((if startswith_any name ["block"; "danger"]%string
                        then modify (add_geometry sp)
                        else modify (add_object sp)) s)).
  assert (H1 : (if startswith_any name ["block"; "danger"]%string
                then modify (add_geometry sp)
                else modify (add_object sp)) s = Returned tt s1).
  { unfold s1. destruct (startswith_any name _); reflexivity. }
  rewrite H1. cbv beta iota. unfold bind at 1.
  match goal with
  | |- exists s', match ?m with Returned _ _ => _ | Raised _ _ => _ end = _ =>
      assert (H2 : exists s2, m = Returned tt s2)
  end.
  { destruct (endswith_any name _); [|eexists; reflexivity].
    specialize (Hname eq_refl). simpl in Hname.
    destruct Hname as [Hk|[Hk|[Hk|[Hk|[]]]]]; rewrite <- Hk;
      eexists; reflexivity. }
  destruct H2 as [s2 H2]. rewrite H2. cbv beta iota.
  unfold bind, modify, ret.
  destruct (startswith name "save"); destruct (startswith name "danger");
    destruct (startswith name "level"); destruct (endswith name "start");
    eexists; reflexivity.
Qed.

Lemma whole_block_readable img x y :
  whole_blocks img ->
  In x (py_range 0 (img_w img) 3) ->
  In y (py_range (img_h img - 1) (-1) (-3)) ->
  exists sig, signature img x y = inr sig.
Proof.
  intros (Hw & Hh & Hpix) Hx Hy.
  apply py_range_up in Hx; [|lia]. apply py_range_down in Hy; [|lia].
  destruct Hx as (k & Hk & Hxk & Hxw). destruct Hy as (k' & Hk' & Hyk & Hyh).
  apply join_colors_defined. intros xi yi Hin.
  apply block_pixels_in in Hin. apply Hpix.
  - apply Z.mod_divide in Hw; [|lia]. destruct Hw as [m Hm]. lia.
  - apply Z.mod_divide in Hh; [|lia]. destruct Hh as [m Hm]. lia.
Qed.

Lemma scan_row_returns E img y :
  whole_blocks img -> colour_names_split E ->
  In y (py_range (img_h img - 1) (-1) (-3)) ->
  forall xs l b s,
    incl xs (py_range 0 (img_w img) 3) ->
    exists s', scan_row E img y xs l b s = Returned tt s'.
Proof.
  intros Hwb Hnames Hy. induction xs as [|x xs IH]; intros l b s Hxs; simpl.
  - eexists; reflexivity.
  - destruct (whole_block_readable img x y Hwb) as [sig Hsig];
      [apply Hxs; left; reflexivity | exact Hy |].
    rewrite Hsig. unfold bind.
    assert (Hrest : forall s1, exists s',
               scan_row E img y xs (l + TEXTURE_SIZE E)%Q b s1 = Returned tt s').
    { intros s1. apply IH. intros x' Hx'. apply Hxs. right. exact Hx'. }
    destruct (tiles E sig) as [tile|] eqn:Ht; [|apply Hrest].
    destruct (place_returns tile l b s (Hnames sig tile Ht)) as [s1 H1].
    rewrite H1. apply Hrest.
Qed.

Lemma scan_rows_returns E img :
  whole_blocks img -> colour_names_split E ->
  forall ys b s,
    incl ys (py_range (img_h img - 1) (-1) (-3)) ->
    exists s', scan_rows E img ys (py_range 0 (img_w img) 3) b s = Returned tt s'.
Proof.
  intros Hwb Hnames. induction ys as [|y ys IH]; intros b s Hys; simpl.
  - eexists; reflexivity.
  - unfold bind.
    destruct (scan_row_returns E img y Hwb Hnames (Hys y (or_introl eq_refl))
                (py_range 0 (img_w img) 3) 0%Q b s (incl_refl _)) as [s1 H1].
    rewrite H1. apply IH. intros y' Hy'. apply Hys. right. exact Hy'.
Qed.

(** X8. On an image made of whole 3x3 blocks of readable pixels, with a
    catalog whose colour-suffixed names carry the colour after their
    last underscore, the scan raises nothing: [load_level] either
    returns [True] or raises the [RuntimeError] of a missing marker. *)
Theorem load_level_fails_only_on_markers E id img s :
  open_image E id = Some img ->
  whole_blocks img ->
  colour_names_split E ->
  exists s',
    load_level E id s = Returned true s' \/
    load_level E id s = Raised (RuntimeError (missing_marker s')) s'.
Proof.
  intros Ho Hwb Hnames.
  destruct (scan_rows_returns E img Hwb Hnames _ 0%Q
              (set_level_data empty_level s) (incl_refl _)) as [s1 H1].
  fold (scan E img (set_level_data empty_level s)) in H1.
  destruct (start s1) as [st|] eqn:Hs; [destruct (end_ s1) as [en|] eqn:He|].
  - exists (respawn st s1). left.
    apply (load_level_true_intro E id img s s1 st en Ho H1 Hs He).
  - exists s1. right. apply (load_level_invalid_raises E id img s s1 Ho H1). auto.
  - exists s1. right. apply (load_level_invalid_raises E id img s s1 Ho H1). auto.
Qed.

Lemma unmatched_image_empties_the_level_witness :
  open_image Demo.env0 2 = Some Demo.blank_image /\
  load_level Demo.env0 2 (Demo.at_end 7) =
    Raised (RuntimeError "Start is not set.")
           (set_level_data empty_level (Demo.at_end 7)).
Proof.
  split; [reflexivity|].
  apply (unmatched_image_empties_the_level Demo.env0 2 Demo.blank_image);
    [reflexivity|].
  intros x y Hx Hy. vm_compute in Hx. vm_compute in Hy.
  destruct Hx as [<-|[]]. destruct Hy as [<-|[]].
  exists "EEEEEEEEE"%string. split; reflexivity.
Defined.

Lemma load_level_fails_only_on_markers_witness :
  (open_image Demo.env0 0 = Some Demo.small_level /\
   whole_blocks Demo.small_level /\
   colour_names_split Demo.env0) /\
  exists s',
    load_level Demo.env0 0 (Demo.at_end 7) = Returned true s' \/
    load_level Demo.env0 0 (Demo.at_end 7) = Raised (RuntimeError (missing_marker s')) s'.
Proof.
  assert (Hwb : whole_blocks Demo.small_level).
  { split; [reflexivity|]. split; [reflexivity|].
    intros x y Hx Hy. simpl in *.
    destruct (Z.leb_spec 0 x); [|lia]. destruct (Z.ltb_spec x 9); [|lia].
    destruct (Z.leb_spec 0 y); [|lia]. destruct (Z.ltb_spec y 6); [|lia].
    simpl. discriminate. }
  assert (Hn : colour_names_split Demo.env0).
  { intros sig tile. simpl. unfold Demo.catalog.
    repeat match goal with
           | |- context [String.eqb sig ?k] => destruct (String.eqb sig k)
           end;
      intros H; inversion H; subst; clear H; vm_compute; intros; auto; discriminate. }
  split; [split; [reflexivity | split; assumption]|].
  exact (load_level_fails_only_on_markers Demo.env0 0 Demo.small_level (Demo.at_end 7)
           eq_refl Hwb Hn).
Defined.


(** ** Frames away from the end tile, and what no frame changes *)

Lemma claim_checkpoint_some E s r :
  start s = Some r -> exists r', start (claim_checkpoint E s) = Some r'.
Proof.
  intros Hs. unfold claim_checkpoint. destruct (rev _) as [|sv l].
  - exists r. exact Hs.
  - exists sv. reflexivity.
Qed.

(** X9. A frame in which the player does not overlap the end tile, with
    a respawn reference set, raises nothing and decodes nothing: the
    level index, the geometry, the coloured geometry, the hazards, the
    checkpoints and the end marker are as before, and the respawn
    reference afterwards is the last checkpoint touched, or the old
    reference when none is touched. *)
Theorem frame_away_from_end_keeps_level E s e r :
  end_ s = Some e ->
  start s = Some r ->
  collides_with_sprite E (box (player s)) e = false ->
  exists s',
    on_update E s = Returned tt s' /\
    level s' = level s /\
    loaded s' = loaded s /\
    start s' = match rev (collides_with_list E (box (player s)) (saves s)) with
               | [] => Some r
               | sv :: _ => Some sv
               end.
Proof.
  intros He Hs Hc.
  assert (H0 : (update_control E ;;; update_end E) s
               = Returned tt (state_of (update_control E s))).
  { unfold bind.
    change (update_control E s) with (Returned tt (state_of (update_control E s))).
    cbv beta iota. unfold update_end, bind, get.
    change (end_ (state_of (update_control E s))) with (end_ s). rewrite He.
    change (box (player (state_of (update_control E s)))) with (box (player s)).
    rewrite Hc. reflexivity. }
  pose proof (update_rules_from E s _ H0) as Hr.
  set (c := state_of (update_control E s)) in *.
  destruct (claim_checkpoint_some E c r Hs) as [r' Hr'].
  rewrite (hazards_spec E r' _ Hr') in Hr.
  unfold on_update, bind. rewrite Hr.
  eexists. split; [reflexivity|].
  assert (Hk : level (claim_checkpoint E c) = level s /\
               loaded (claim_checkpoint E c) = loaded s /\
               start (claim_checkpoint E c)
               = match rev (collides_with_list E (box (player s)) (saves s)) with
                 | [] => Some r
                 | sv :: _ => Some sv
                 end).
  { unfold claim_checkpoint.
    change (box (player c)) with (box (player s)).
    change (saves c) with (saves s).
    destruct (rev _); repeat split; try reflexivity. exact Hs. }
  destruct Hk as (Hk1 & Hk2 & Hk3).
  destruct (contact E (claim_checkpoint E c)); simpl;
    (split; [exact Hk1 | split; [exact Hk2 | exact Hk3]]).
Qed.

Lemma frame_away_from_end_keeps_level_witness :
  (end_ Demo.at_wall = Some Demo.end_tile /\
   start Demo.at_wall = Some Demo.start_tile /\
   collides_with_sprite Demo.env (box (player Demo.at_wall)) Demo.end_tile = false) /\
  exists s',
    on_update Demo.env Demo.at_wall = Returned tt s' /\
    level s' = 0 /\
    loaded s' = loaded Demo.at_wall /\
    start s' = Some Demo.start_tile.
Proof.
  split; [repeat split; reflexivity|].
  exact (frame_away_from_end_keeps_level Demo.env Demo.at_wall Demo.end_tile
           Demo.start_tile eq_refl eq_refl eq_refl).
Defined.

Lemma platforms_others s t :
  others s = others t -> engine_platforms s = engine_platforms t.
Proof. unfold others. intros H. inversion H. reflexivity. Qed.

Lemma on_update_platforms E s :
  engine_platforms (state_of (on_update E s)) = engine_platforms s.
Proof.
  unfold on_update, bind.
  pose proof (kept_update_rules E _ engine_platforms platforms_others
                (fun _ _ _ => eq_refl) (fun _ _ => eq_refl) (fun _ _ => eq_refl) s) as Hr.
  destruct (update_rules E s) as [[] s1|x s1]; simpl in *; exact Hr.
Qed.

Lemma on_key_press_surroundings E k s :
  surroundings (on_key_press E k s) = surroundings s.
Proof.
  unfold on_key_press, press_move, press_jump, press_dash, press_pre, press_color.
  repeat match goal with
         | |- context [if ?b then _ else _] => destruct b
         | |- context [match ?o with Some _ => _ | None => _ end] => destruct o
         end; reflexivity.
Qed.

Lemma on_key_release_surroundings k s :
  surroundings (on_key_release k s) = surroundings s.
Proof.
  unfold on_key_release.
  repeat match goal with
         | |- context [if ?b then _ else _] => destruct b
         end; reflexivity.
Qed.

(** X10. The list of platforms the physics engine was built with is
    never replaced: no run of frames, whatever levels it loads and
    however it ends, and no key event changes it. *)
Theorem engine_platforms_never_change E s :
  (forall n, engine_platforms (state_of (frames E n s)) = engine_platforms s) /\
  (forall k, engine_platforms (on_key_press E k s) = engine_platforms s) /\
  (forall k, engine_platforms (on_key_release k s) = engine_platforms s).
Proof.
  split; [|split].
  - intros n. revert s. induction n as [|n IH]; intros s; [reflexivity|].
    simpl. unfold bind.
    pose proof (on_update_platforms E s) as H.
    destruct (on_update E s) as [[] s1|x s1]; simpl in *; [|exact H].
    rewrite IH. exact H.
  - intros k. pose proof (on_key_press_surroundings E k s) as H.
    unfold surroundings in H. inversion H. reflexivity.
  - intros k. pose proof (on_key_release_surroundings k s) as H.
    unfold surroundings in H. inversion H. reflexivity.
Qed.

Lemma player_core_others s t :
  others s = others t -> player_core (player s) = player_core (player t).
Proof. unfold others. intros H. inversion H. reflexivity. Qed.

(** X11. The rules of a frame (lines 165-189) change of the player only
    its position and its control profile: size, velocity, colour,
    facing, counters, jump state and movement request are as before,
    however the rules end. The profile itself is the ground one when the
    engine reported the player grounded at the start of the frame, and
    the air one otherwise, a level change in between notwithstanding. *)
Theorem rules_change_position_and_control_only E s :
  player_core (player (state_of (update_rules E s))) = player_core (player s) /\
  movement_control (player (state_of (update_rules E s)))
  = (if grounded E s then GROUND_CONTROL E else AIR_CONTROL E) /\
  dash_emitters (state_of (on_update E s)) = dash_emitters s.
Proof.
  split; [|split].
  - apply (kept_update_rules E _ (fun s => player_core (player s)) player_core_others);
      intros; reflexivity.
  - rewrite (kept_rules_tail E _ (fun s => movement_control (player s))).
    + rewrite (kept_update_end E _ (fun s => movement_control (player s))).
      * reflexivity.
      * unfold others. intros a b H. inversion H. reflexivity.
      * intros; reflexivity.
      * intros; reflexivity.
    + unfold others. intros a b H. inversion H. reflexivity.
    + intros; reflexivity.
  - unfold on_update, bind.
    pose proof (kept_update_rules E _ dash_emitters
                  (fun a b H => f_equal (fun o => snd (fst o)) H)
                  (fun _ _ _ => eq_refl) (fun _ _ => eq_refl) (fun _ _ => eq_refl) s) as Hr.
    destruct (update_rules E s) as [[] s1|x s1]; simpl in *; exact Hr.
Qed.

Lemma claim_checkpoint_geometry E s :
  level_geometry (claim_checkpoint E s) = level_geometry s.
Proof. unfold claim_checkpoint. destruct (rev _); reflexivity. Qed.

(** X12. In a frame that reaches the end tile and decodes the next level
    with success, [level_geometry] becomes the geometry of the new level
    while the engine keeps the platforms it had: from then on the
    physics step and the grounded test run against the old level. *)
Theorem level_change_leaves_engine_behind E s e s1 :
  end_ s = Some e ->
  collides_with_sprite E (box (player s)) e = true ->
  load_level E (level s + 1) (set_level (level s + 1) (state_of (update_control E s)))
    = Returned true s1 ->
  level_geometry (state_of (on_update E s)) = level_geometry s1 /\
  engine_platforms (state_of (on_update E s)) = engine_platforms s /\
  grounded E (state_of (update_rules E s))
  = can_jump E (box (player (state_of (update_rules E s)))) (engine_platforms s).
Proof.
  intros He Hc Hl.
  assert (H0 : (update_control E ;;; update_end E) s = Returned tt s1).
  { unfold bind.
    change (update_control E s) with (Returned tt (state_of (update_control E s))).
    cbv beta iota.
    rewrite (update_end_collides E (state_of (update_control E s)) e He Hc).
    change (level (state_of (update_control E s))) with (level s).
    rewrite Hl. reflexivity. }
  pose proof (update_rules_from E s s1 H0) as Hr.
  assert (Hg : level_geometry (state_of (update_rules E s)) = level_geometry s1).
  { rewrite Hr.
    rewrite (kept_hazards E _ level_geometry (fun _ _ _ => eq_refl)).
    apply claim_checkpoint_geometry. }
  assert (Hp : engine_platforms (state_of (update_rules E s)) = engine_platforms s).
  { apply (kept_update_rules E _ engine_platforms platforms_others);
      intros; reflexivity. }
  split; [|split].
  - unfold on_update, bind.
    destruct (update_rules E s) as [[] s2|x s2]; simpl in *; exact Hg.
  - apply on_update_platforms.
  - unfold grounded. rewrite Hp. reflexivity.
Qed.

Lemma level_change_leaves_engine_behind_witness :
  (end_ (Demo.at_end (-1)) = Some Demo.end_tile /\
   collides_with_sprite Demo.env0 (box (player (Demo.at_end (-1)))) Demo.end_tile = true) /\
  level_geometry (state_of (on_update Demo.env0 (Demo.at_end (-1))))
    = [Demo.tile_at 1 0 0; Demo.tile_at 1 32 0; Demo.tile_at 1 64 0] /\
  engine_platforms (state_of (on_update Demo.env0 (Demo.at_end (-1))))
    = Demo.floor_tiles /\
  In Demo.wall Demo.floor_tiles.
Proof.
  split; [split; reflexivity|].
  assert (Hl : load_level Demo.env0 (level (Demo.at_end (-1)) + 1)
                 (set_level (level (Demo.at_end (-1)) + 1)
                    (state_of (update_control Demo.env0 (Demo.at_end (-1)))))
               = Returned true
                   (state_of (load_level Demo.env0 0
                      (set_level 0 (state_of (update_control Demo.env0 (Demo.at_end (-1))))))))
    by (vm_compute; reflexivity).
  destruct (level_change_leaves_engine_behind Demo.env0 (Demo.at_end (-1)) Demo.end_tile _
              eq_refl eq_refl Hl) as (H1 & H2 & _).
  split; [rewrite H1; vm_compute; reflexivity|].
  split; [rewrite H2; reflexivity|].
  simpl. auto.
Defined.

(** ** More on the camera *)

(** [int] moves a number by less than one. *)
Lemma py_int_within_one q :
  (inject_Z (py_int q) - 1 < q)%Q /\ (q < inject_Z (py_int q) + 1)%Q.
Proof.
  destruct q as [n d]. unfold py_int. simpl Qnum. simpl Qden.
  pose proof (Z.quot_rem' n (Z.pos d)) as Hqr.
  pose proof (Z.rem_bound_abs n (Z.pos d) ltac:(discriminate)) as Hb.
  set (t := Z.quot n (Z.pos d)) in *. set (r := Z.rem n (Z.pos d)) in *.
  assert (Hd : 0 < Z.pos d) by lia.
  unfold Qlt, Qminus, Qplus, Qopp, inject_Z. simpl.
  split; nia.
Qed.

Lemma set_view_same s :
  set_view (view_left s) (view_bottom s) (viewport s) s = s.
Proof. destruct s; reflexivity. Qed.

(** X13. When the player is within the margin on all four edges,
    [update_screen] changes nothing at all: the view stays and no
    viewport is pushed. *)
Theorem update_screen_within_margins E s :
  (left_overshoot E s <= 0)%Q ->
  (right_overshoot E s <= 0)%Q ->
  (top_overshoot E s <= 0)%Q ->
  (bottom_overshoot E s <= 0)%Q ->
  update_screen E s = s.
Proof.
  intros Hl Hr Ht Hb.
  pose proof (scroll_none_horizontal E s Hl Hr) as Hvl.
  pose proof (scroll_none_vertical E s Ht Hb) as Hvb.
  assert (Hch : screen_changed E s = false).
  { unfold screen_changed, scroll_left, scroll_up,
      left_overshoot, right_overshoot, top_overshoot, bottom_overshoot, p_right, p_top in *.
    split_Qltb; try reflexivity; exfalso; lra. }
  unfold update_screen in *. simpl in Hvl, Hvb.
  rewrite Hch, Hvl, Hvb. apply set_view_same.
Qed.

Lemma update_screen_within_margins_witness :
  ((left_overshoot Demo.env Demo.in_view <= 0)%Q /\
   (right_overshoot Demo.env Demo.in_view <= 0)%Q /\
   (top_overshoot Demo.env Demo.in_view <= 0)%Q /\
   (bottom_overshoot Demo.env Demo.in_view <= 0)%Q) /\
  update_screen Demo.env Demo.in_view = Demo.in_view.
Proof.
  assert (H1 : (left_overshoot Demo.env Demo.in_view <= 0)%Q) by (vm_compute; discriminate).
  assert (H2 : (right_overshoot Demo.env Demo.in_view <= 0)%Q) by (vm_compute; discriminate).
  assert (H3 : (top_overshoot Demo.env Demo.in_view <= 0)%Q) by (vm_compute; discriminate).
  assert (H4 : (bottom_overshoot Demo.env Demo.in_view <= 0)%Q) by (vm_compute; discriminate).
  split; [repeat split; assumption|].
  exact (update_screen_within_margins Demo.env Demo.in_view H1 H2 H3 H4).
Defined.

Section Margins.

Variable E : Env.
Variable s : GameState.

(** Before [int] is applied, the view has the player inside both
    horizontal margins, provided the player fits between them. *)
Lemma scrolled_horizontally :
  (p_width (player s)
   <= inject_Z (game_width s) - 2 * VIEWPORT_MARGIN E)%Q ->
  (scroll_right E (game_width s) (player s)
     (scroll_left E (player s) (inject_Z (view_left s)))
   + VIEWPORT_MARGIN E <= p_left (player s))%Q /\
  (p_right (player s)
   <= scroll_right E (game_width s) (player s)
        (scroll_left E (player s) (inject_Z (view_left s)))
      + inject_Z (game_width s) - VIEWPORT_MARGIN E)%Q.
Proof.
  intros Hfit. unfold scroll_right, scroll_left, p_right in *.
  split_Qltb; split; lra.
Qed.

Lemma scrolled_vertically :
  (p_height (player s)
   <= inject_Z (game_height s) - 2 * VIEWPORT_MARGIN E)%Q ->
  (scroll_down E (player s)
     (scroll_up E (game_height s) (player s) (inject_Z (view_bottom s)))
   + VIEWPORT_MARGIN E <= p_bottom (player s))%Q /\
  (p_top (player s)
   <= scroll_down E (player s)
        (scroll_up E (game_height s) (player s) (inject_Z (view_bottom s)))
      + inject_Z (game_height s) - VIEWPORT_MARGIN E)%Q.
Proof.
  intros Hfit. unfold scroll_down, scroll_up, p_top in *.
  split_Qltb; split; lra.
Qed.

End Margins.

(** X14. When the player fits between the margins of the window (its
    width is at most the window's width less twice the margin, and the
    same for the heights), the view that [update_screen] leaves has the
    player inside all four margins up to the truncation by [int], that
    is, less than one unit outside. *)
Theorem update_screen_keeps_player_in_view E s :
  (p_width (player s) <= inject_Z (game_width s) - 2 * VIEWPORT_MARGIN E)%Q ->
  (p_height (player s) <= inject_Z (game_height s) - 2 * VIEWPORT_MARGIN E)%Q ->
  (inject_Z (view_left (update_screen E s)) + VIEWPORT_MARGIN E - 1
   < p_left (player s))%Q /\
  (p_right (player s)
   < inject_Z (view_left (update_screen E s)) + inject_Z (game_width s)
     - VIEWPORT_MARGIN E + 1)%Q /\
  (inject_Z (view_bottom (update_screen E s)) + VIEWPORT_MARGIN E - 1
   < p_bottom (player s))%Q /\
  (p_top (player s)
   < inject_Z (view_bottom (update_screen E s)) + inject_Z (game_height s)
     - VIEWPORT_MARGIN E + 1)%Q.
Proof.
  intros Hw Hh.
  destruct (scrolled_horizontally E s Hw) as [H1 H2].
  destruct (scrolled_vertically E s Hh) as [H3 H4].
  unfold update_screen. simpl view_left. simpl view_bottom.
  destruct (py_int_within_one
              (scroll_right E (game_width s) (player s)
                 (scroll_left E (player s) (inject_Z (view_left s))))) as [Ha Hb].
  destruct (py_int_within_one
              (scroll_down E (player s)
                 (scroll_up E (game_height s) (player s) (inject_Z (view_bottom s)))))
    as [Hc Hd].
  repeat split; lra.
Qed.

Lemma update_screen_keeps_player_in_view_witness :
  ((p_width (player Demo.far_right)
    <= inject_Z (game_width Demo.far_right) - 2 * VIEWPORT_MARGIN Demo.env)%Q /\
   (p_height (player Demo.far_right)
    <= inject_Z (game_height Demo.far_right) - 2 * VIEWPORT_MARGIN Demo.env)%Q) /\
  view_left (update_screen Demo.env Demo.far_right) = 1256 /\
  (p_right (player Demo.far_right)
   < inject_Z (view_left (update_screen Demo.env Demo.far_right))
     + inject_Z (game_width Demo.far_right) - VIEWPORT_MARGIN Demo.env + 1)%Q.
Proof.
  assert (H1 : (p_width (player Demo.far_right)
                <= inject_Z (game_width Demo.far_right)
                   - 2 * VIEWPORT_MARGIN Demo.env)%Q) by (vm_compute; discriminate).
  assert (H2 : (p_height (player Demo.far_right)
                <= inject_Z (game_height Demo.far_right)
                   - 2 * VIEWPORT_MARGIN Demo.env)%Q) by (vm_compute; discriminate).
  split; [split; assumption|]. split; [vm_compute; reflexivity|].
  exact (proj1 (proj2 (update_screen_keeps_player_in_view Demo.env Demo.far_right H1 H2))).
Defined.

(** ** More on key events *)

Lemma press_color_position k s :
  position (player (press_color k s)) = position (player s).
Proof.
  unfold press_color.
  destruct (k =? key.E); destruct (key_colors_get key_colors k); reflexivity.
Qed.

Lemma press_jump_position E k s :
  position (player (press_jump E k s)) = position (player s).
Proof.
  unfold press_jump. destruct (k =? key.SPACE); [|reflexivity].
  simpl. destruct (_ <=? _); reflexivity.
Qed.

Lemma press_move_position E k s :
  position (player (press_move E k s)) = position (player s).
Proof.
  unfold press_move.
  destruct ((k =? key.LEFT) || (k =? key.A));
    destruct ((k =? key.RIGHT) || (k =? key.D)); reflexivity.
Qed.

Lemma press_dash_bottom E k s :
  p_bottom (player (press_dash E k s)) = p_bottom (player s).
Proof.
  unfold press_dash.
  repeat match goal with
         | |- context [if ?b then _ else _] => destruct b
         end; reflexivity.
Qed.

(** X15. A key press or release never reaches the level, its index, the
    engine's platforms or the camera, and never moves the player
    vertically; a press moves it horizontally only if the key is the
    dash key, and a release never moves it. *)
Theorem key_events_leave_the_world_alone E k s :
  surroundings (on_key_press E k s) = surroundings s /\
  surroundings (on_key_release k s) = surroundings s /\
  p_bottom (player (on_key_press E k s)) = p_bottom (player s) /\
  position (player (on_key_release k s)) = position (player s) /\
  (k <> key.LSHIFT -> position (player (on_key_press E k s)) = position (player s)).
Proof.
  split; [apply on_key_press_surroundings|].
  split; [apply on_key_release_surroundings|].
  assert (Hpre : position (player (press_pre E (press_color k s))) = position (player s)).
  { rewrite press_pre_position. apply press_color_position. }
  split; [|split].
  - unfold on_key_press.
    pose proof (press_move_position E k
                  (press_jump E k (press_dash E k (press_pre E (press_color k s))))) as H1.
    pose proof (press_jump_position E k
                  (press_dash E k (press_pre E (press_color k s)))) as H2.
    unfold position in *. injection H1 as _ H1. injection H2 as _ H2.
    injection Hpre as _ Hpre.
    rewrite H1, H2, press_dash_bottom. exact Hpre.
  - unfold on_key_release.
    repeat match goal with
           | |- context [if ?b then _ else _] => destruct b
           end; reflexivity.
  - intros Hk. unfold on_key_press.
    rewrite press_move_position, press_jump_position.
    unfold press_dash. apply Z.eqb_neq in Hk. rewrite Hk. exact Hpre.
Qed.

Lemma key_events_leave_the_world_alone_witness :
  key.SPACE <> key.LSHIFT /\
  position (player (on_key_press Demo.env key.SPACE Demo.landed)) = (0%Q, 32%Q).
Proof.
  assert (H : key.SPACE <> key.LSHIFT) by discriminate.
  split; [exact H|].
  exact (proj2 (proj2 (proj2 (proj2
           (key_events_leave_the_world_alone Demo.env key.SPACE Demo.landed)))) H).
Defined.

(** X16. The colour after a key press is decided by the key alone when
    it is one of the four colour keys (F white, R red, G green, B blue),
    is the next colour in the cycle when it is the cycle key, and is the
    colour before for every other key. *)
Theorem colour_keys_set_the_colour E k s :
  str_color (player (on_key_press E k s)) =
  match key_colors_get key_colors k with
  | Some c => c
  | None => if k =? key.E then next_color (str_color (player s))
            else str_color (player s)
  end /\
  str_color (player (on_key_press E key.F s)) = white /\
  str_color (player (on_key_press E key.R s)) = red /\
  str_color (player (on_key_press E key.G s)) = green /\
  str_color (player (on_key_press E key.B s)) = blue /\
  str_color (player (on_key_release k s)) = str_color (player s).
Proof.
  assert (H : forall k', str_color (player (on_key_press E k' s)) =
                         str_color (player (press_color k' s))).
  { intros k'. unfold on_key_press.
    rewrite press_move_color, press_jump_color, press_dash_color, press_pre_color.
    reflexivity. }
  split; [|repeat split; try (rewrite H; reflexivity)].
  - rewrite H. unfold press_color.
    destruct (key_colors_get key_colors k); destruct (k =? key.E); reflexivity.
  - unfold on_key_release.
    repeat match goal with
           | |- context [if ?b then _ else _] => destruct b
           end; reflexivity.
Qed.

Lemma press_jump_airborne E s :
  grounded E s = false ->
  on_key_press E key.SPACE s = press_jump E key.SPACE s.
Proof.
  intros Hg. unfold on_key_press.
  change (press_color key.SPACE s) with s.
  unfold press_pre. rewrite Hg. reflexivity.
Qed.

Lemma press_jump_grounded E s :
  grounded E (press_jump E key.SPACE s) = grounded E s.
Proof.
  unfold press_jump. change (key.SPACE =? key.SPACE) with true. cbv iota.
  destruct (_ <=? _); reflexivity.
Qed.

Lemma airborne_jumps_count E n : forall s,
  grounded E s = false ->
  jump_count (player (presses E (repeat key.SPACE n) s))
  = jump_count (player s) + Z.of_nat n.
Proof.
  induction n as [|n IH]; intros s Hg; [simpl; lia|].
  change (presses E (repeat key.SPACE (S n)) s)
    with (presses E (repeat key.SPACE n) (on_key_press E key.SPACE s)).
  rewrite (press_jump_airborne E s Hg).
  rewrite IH; [|rewrite press_jump_grounded; exact Hg].
  pose proof (press_jump_counts E key.SPACE s) as Hc.
  change (key.SPACE =? key.SPACE) with true in Hc. injection Hc as Hj _.
  rewrite Hj. lia.
Qed.

(** X17. A press of the jump key in the air counts one more jump whether
    or not the jump is granted. It is granted exactly while the new
    count does not exceed [JUMP_COUNT]: then the vertical velocity is
    zeroed, the jumping flag is set and the jump force is [JUMP_FORCE]
    plus [JUMP_VELOCITY_BONUS] times the horizontal speed; otherwise
    nothing but the counter changes. So [n] presses in a row in the air
    leave the counter [n] higher. *)
Theorem airborne_jump_budget E s :
  grounded E s = false ->
  jump_count (player (on_key_press E key.SPACE s)) = jump_count (player s) + 1 /\
  (jump_count (player s) + 1 <= JUMP_COUNT E ->
     player (on_key_press E key.SPACE s)
     = set_jump 0 true (JUMP_FORCE E + Qabs (change_x (player s)) * JUMP_VELOCITY_BONUS E)%Q
         (set_counts (jump_count (player s) + 1) (dash_count (player s)) (player s))) /\
  (JUMP_COUNT E < jump_count (player s) + 1 ->
     player (on_key_press E key.SPACE s)
     = set_counts (jump_count (player s) + 1) (dash_count (player s)) (player s)) /\
  (forall n, jump_count (player (presses E (repeat key.SPACE n) s))
             = jump_count (player s) + Z.of_nat n).
Proof.
  intros Hg. rewrite (press_jump_airborne E s Hg).
  unfold press_jump. change (key.SPACE =? key.SPACE) with true. cbv iota.
  split; [|split; [|split]].
  - simpl. destruct (_ <=? _); reflexivity.
  - intros H. apply Z.leb_le in H. simpl. rewrite H. reflexivity.
  - intros H. apply Z.leb_gt in H. simpl. rewrite H. reflexivity.
  - intros n. apply airborne_jumps_count, Hg.
Qed.

Lemma airborne_jump_budget_witness :
  grounded Demo.env (Demo.in_air 0) = false /\
  jump_count (player (Demo.in_air 0)) = 1 /\
  jump_count (player (presses Demo.env (repeat key.SPACE 3) (Demo.in_air 0))) = 4 /\
  is_jumping (player (on_key_press Demo.env key.SPACE (Demo.in_air 0))) = true.
Proof.
  split; [reflexivity|]. split; [reflexivity|].
  destruct (airborne_jump_budget Demo.env (Demo.in_air 0) eq_refl)
    as (_ & H2 & _ & H4).
  split; [exact (H4 3%nat)|].
  rewrite H2; [reflexivity | vm_compute; discriminate].
Defined.

(** X18. With a positive movement speed: releasing the left key stops a
    leftward run, facing left still; but releasing the right key while
    the player runs left (right pressed, then left, then right released)
    stops nothing. A release never changes the facing direction. *)
Theorem release_stops_only_its_own_direction E s :
  (0 < PLAYER_MOVEMENT_SPEED E)%Q ->
  movement_x (player (on_key_release key.LEFT (on_key_press E key.LEFT s))) = 0%Q /\
  direction (player (on_key_release key.LEFT (on_key_press E key.LEFT s))) = LEFT E /\
  movement_x (player (on_key_release key.RIGHT
                        (on_key_press E key.LEFT (on_key_press E key.RIGHT s))))
  = (- PLAYER_MOVEMENT_SPEED E)%Q /\
  direction (player (on_key_release key.RIGHT
                       (on_key_press E key.LEFT (on_key_press E key.RIGHT s))))
  = LEFT E /\
  (forall k t, direction (player (on_key_release k t)) = direction (player t)).
Proof.
  intros Hspeed.
  assert (Hneg : Qltb (- PLAYER_MOVEMENT_SPEED E) 0 = true).
  { apply Qltb_lt. lra. }
  assert (Hpos : Qltb 0 (- PLAYER_MOVEMENT_SPEED E) = false).
  { apply Qltb_ge. lra. }
  assert (Hleft : forall t,
            movement_x (player (on_key_press E key.LEFT t)) = (- PLAYER_MOVEMENT_SPEED E)%Q
            /\ direction (player (on_key_press E key.LEFT t)) = LEFT E).
  { intros t. unfold on_key_press. split; reflexivity. }
  assert (Hdir : forall k t, direction (player (on_key_release k t)) = direction (player t)).
  { intros k t. unfold on_key_release.
    repeat match goal with
           | |- context [if ?b then _ else _] => destruct b
           end; reflexivity. }
  repeat split.
  - unfold on_key_release. change (key.LEFT =? key.SPACE) with false.
    change ((key.LEFT =? key.LEFT) || (key.LEFT =? key.A)) with true. cbv iota.
    rewrite (proj1 (Hleft s)), Hneg. reflexivity.
  - rewrite Hdir. apply Hleft.
  - unfold on_key_release. change (key.RIGHT =? key.SPACE) with false.
    change ((key.RIGHT =? key.LEFT) || (key.RIGHT =? key.A)) with false.
    change ((key.RIGHT =? key.RIGHT) || (key.RIGHT =? key.D)) with true. cbv iota.
    rewrite (proj1 (Hleft _)), Hpos. apply Hleft.
  - rewrite Hdir. apply Hleft.
  - exact Hdir.
Qed.

Lemma release_stops_only_its_own_direction_witness :
  (0 < PLAYER_MOVEMENT_SPEED Demo.env)%Q /\
  movement_x (player (on_key_release key.LEFT
                        (on_key_press Demo.env key.LEFT Demo.landed))) = 0%Q /\
  movement_x (player (on_key_release key.RIGHT
                        (on_key_press Demo.env key.LEFT
                           (on_key_press Demo.env key.RIGHT Demo.landed)))) = (- (5))%Q.
Proof.
  assert (H : (0 < PLAYER_MOVEMENT_SPEED Demo.env)%Q) by reflexivity.
  split; [exact H|].
  destruct (release_stops_only_its_own_direction Demo.env Demo.landed H)
    as (H1 & _ & H3 & _).
  split; [exact H1 | exact H3].
Defined.

(** X19. A dash that is granted adds to [dash_emitters] what the factory
    makes for a trail that starts one [DASH_DISTANCE] into the dash and
    ends at its end, at the height of the player's centre; a dash that
    is blocked or refused adds nothing, and so does every other key. *)
Theorem dash_trail_covers_second_half E s :
  (sweep_trace E (box (player s)) (DASH_DISTANCE E) 0%Q (level_geometry s) = false ->
   grounded E s = true \/ dash_count (player s) < DASH_COUNT E ->
   exists old new,
     dash_emitters (on_key_press E key.LSHIFT s)
     = dash_emitters s
       ++ dash_emitter_factory E (player (on_key_press E key.LSHIFT s)) old new /\
     (fst old == center_x (player s) + DASH_DISTANCE E * direction (player s))%Q /\
     (fst new == center_x (player s) + 2 * DASH_DISTANCE E * direction (player s))%Q /\
     snd old = center_y (player s) /\ snd new = center_y (player s)) /\
  (sweep_trace E (box (player s)) (DASH_DISTANCE E) 0%Q (level_geometry s) = true ->
   dash_emitters (on_key_press E key.LSHIFT s) = dash_emitters s) /\
  (grounded E s = false -> DASH_COUNT E <= dash_count (player s) ->
   dash_emitters (on_key_press E key.LSHIFT s) = dash_emitters s) /\
  (forall k, k <> key.LSHIFT -> dash_emitters (on_key_press E k s) = dash_emitters s).
Proof.
  split; [|split; [|split]].
  - intros Hsweep Hok.
    rewrite on_key_press_dash. unfold press_dash.
    rewrite press_pre_box, press_pre_geometry, Hsweep, press_pre_grounded.
    change (65505 =? 65505) with true. cbv beta iota. simpl negb. cbv iota.
    destruct (grounded E s) eqn:Hg; simpl negb; cbv iota.
    + unfold press_pre. rewrite Hg.
      eexists. eexists. split; [reflexivity|].
      simpl. unfold center_x, center_y. simpl.
      repeat split; try reflexivity; ring.
    + destruct Hok as [Hok|Hok]; [discriminate|].
      unfold press_pre. rewrite Hg.
      apply Z.ltb_lt in Hok. rewrite Hok.
      eexists. eexists. split; [reflexivity|].
      simpl. unfold center_x, center_y. simpl.
      repeat split; try reflexivity; ring.
  - intros Hsweep.
    rewrite on_key_press_dash. unfold press_dash.
    rewrite press_pre_box, press_pre_geometry, Hsweep.
    change (65505 =? 65505) with true. cbv beta iota. simpl negb. cbv iota.
    unfold press_pre. destruct (grounded E s); reflexivity.
  - intros Hg Hd.
    rewrite on_key_press_dash. unfold press_dash.
    rewrite press_pre_grounded, Hg. unfold press_pre. rewrite Hg.
    apply Z.ltb_ge in Hd. rewrite Hd.
    change (65505 =? 65505) with true. simpl negb. cbv iota.
    destruct (negb (sweep_trace E _ _ _ _)); reflexivity.
  - intros k Hk. apply Z.eqb_neq in Hk.
    unfold on_key_press, press_move, press_jump, press_dash. rewrite Hk.
    unfold press_pre, press_color.
    repeat match goal with
           | |- context [if ?b then _ else _] => destruct b
           | |- context [match ?o with Some _ => _ | None => _ end] => destruct o
           end; reflexivity.
Qed.

Lemma dash_trail_covers_second_half_witness :
  (sweep_trace Demo.env (box (player Demo.landed)) (DASH_DISTANCE Demo.env) 0%Q
     (level_geometry Demo.landed) = false /\
   grounded Demo.env Demo.landed = true) /\
  exists old new,
    dash_emitters (on_key_press Demo.env key.LSHIFT Demo.landed)
    = dash_emitters Demo.landed
      ++ dash_emitter_factory Demo.env
           (player (on_key_press Demo.env key.LSHIFT Demo.landed)) old new /\
    (fst old == center_x (player Demo.landed)
                + DASH_DISTANCE Demo.env * direction (player Demo.landed))%Q /\
    (fst new == center_x (player Demo.landed)
                + 2 * DASH_DISTANCE Demo.env * direction (player Demo.landed))%Q /\
    snd old = center_y (player Demo.landed) /\
    snd new = center_y (player Demo.landed).
Proof.
  split; [split; reflexivity|].
  exact (proj1 (dash_trail_covers_second_half Demo.env Demo.landed)
           eq_refl (or_introl eq_refl)).
Defined.

(** ** Construction and the window *)

Lemma set_center_center cx cy p :
  (center_x (set_center cx cy p) == cx)%Q /\ (center_y (set_center cx cy p) == cy)%Q.
Proof. unfold center_x, center_y, set_center. simpl. split; field. Qed.

Lemma init_outcome E w h fresh :
  init E w h fresh =
  match load_level E 0 (blank w h fresh) with
  | Returned _ s => Returned tt (set_engine (level_geometry s) s)
  | Raised e s => Raised e s
  end.
Proof. reflexivity. Qed.

(** X20. When the constructor returns, the session is on level 0 with
    the camera at the origin, no dash effect, and the engine built over
    the geometry of that level, which stays the engine's list through
    every later frame. If the image of level 0 opened, both markers are
    set and the player stands at the start marker. If it did not, the
    constructor returns all the same, with the player centred at
    (200, 200), no tile and no marker, and the first frame raises. *)
Theorem init_builds_the_first_level E w h fresh s0 :
  init E w h fresh = Returned tt s0 ->
  (level s0 = 0 /\ view_left s0 = 0 /\ view_bottom s0 = 0 /\
   game_width s0 = w /\ game_height s0 = h /\ dash_emitters s0 = [] /\
   player_core (player s0) = player_core fresh) /\
  engine_platforms s0 = level_geometry s0 /\
  (forall n, engine_platforms (state_of (frames E n s0)) = level_geometry s0) /\
  (open_image E 0 <> None ->
   exists st en,
     start s0 = Some st /\ end_ s0 = Some en /\
     position (player s0) = (sp_left st, sp_bottom st)) /\
  (open_image E 0 = None ->
   all_sprites s0 = [] /\
   (center_x (player s0) == 200)%Q /\ (center_y (player s0) == 200)%Q /\
   raised (on_update E s0) <> None).
Proof.
  rewrite init_outcome. intros H.
  destruct (load_level E 0 (blank w h fresh)) as [b s1|e s1] eqn:Hl; [|discriminate].
  inversion H; subst s0; clear H.
  pose proof (load_level_others E 0 (blank w h fresh)) as (l & bt & Ho).
  rewrite Hl in Ho. simpl in Ho.
  assert (Hrest : level s1 = 0 /\ view_left s1 = 0 /\ view_bottom s1 = 0 /\
                  game_width s1 = w /\ game_height s1 = h /\ dash_emitters s1 = [] /\
                  player_core (player s1) = player_core fresh).
  { unfold others in Ho. simpl in Ho. injection Ho; intros.
    repeat split; try congruence.
    match goal with Hp : player s1 = _ |- _ => rewrite Hp end. reflexivity. }
  split; [exact Hrest|]. split; [reflexivity|]. split; [|split].
  all: simpl.
  - intros n. revert n.
    assert (G : forall n s, engine_platforms (state_of (frames E n s)) = engine_platforms s).
    { induction n as [|n IH]; intros s; [reflexivity|].
      simpl. unfold bind. pose proof (on_update_platforms E s) as Hp.
      destruct (on_update E s) as [[] s2|x s2]; simpl in *; [|exact Hp].
      rewrite IH. exact Hp. }
    intros n. rewrite G. reflexivity.
  - intros Hopen. destruct b.
    + destruct (load_level_true_inv E 0 _ _ Hl)
        as (img & s2 & st & en & _ & _ & Hs & He & ->).
      exists st, en. repeat split; assumption || reflexivity.
    + exfalso. apply Hopen.
      revert Hl. unfold load_level. destruct (open_image E 0) as [img|]; [|reflexivity].
      unfold bind at 1. unfold modify at 1. unfold bind at 1.
      destruct (scan E img _) as [[] s2|e s2]; [|discriminate].
      unfold bind, get. destruct (start s2) eqn:Hs; [|discriminate].
      destruct (end_ s2); [|discriminate].
      unfold move_to_start. rewrite Hs. discriminate.
  - intros Hopen. rewrite (load_level_not_found E 0 _ Hopen) in Hl.
    inversion Hl; subst. split; [reflexivity|].
    split; [apply set_center_center|]. split; [apply set_center_center|].
    unfold on_update, update_rules, bind, update_control, modify, update_end, get.
    simpl. discriminate.
Qed.

Lemma init_builds_the_first_level_witness :
  init Demo.env0 1024 768 (Demo.lemon 0 0 0 0)
    = Returned tt (state_of (init Demo.env0 1024 768 (Demo.lemon 0 0 0 0))) /\
  engine_platforms (state_of (init Demo.env0 1024 768 (Demo.lemon 0 0 0 0)))
    = [Demo.tile_at 1 0 0; Demo.tile_at 1 32 0; Demo.tile_at 1 64 0] /\
  engine_platforms
    (state_of (frames Demo.env0 2 (state_of (init Demo.env0 1024 768 (Demo.lemon 0 0 0 0)))))
    = [Demo.tile_at 1 0 0; Demo.tile_at 1 32 0; Demo.tile_at 1 64 0].
Proof.
  assert (H : init Demo.env0 1024 768 (Demo.lemon 0 0 0 0)
              = Returned tt (state_of (init Demo.env0 1024 768 (Demo.lemon 0 0 0 0))))
    by (vm_compute; reflexivity).
  split; [exact H|].
  destruct (init_builds_the_first_level Demo.env0 1024 768 (Demo.lemon 0 0 0 0) _ H)
    as (_ & H2 & H3 & _).
  split.
  - rewrite H2. vm_compute. reflexivity.
  - rewrite (H3 2%nat). vm_compute. reflexivity.
Defined.

Lemma started_game_frames E fresh : forall ds g s s',
  ingame g = true ->
  gamestate g = Some s ->
  frames E (List.length ds) s = Returned tt s' ->
  exists g',
    game_frames E fresh ds g = Ran g' /\
    ingame g' = true /\
    gamestate g' = Some s' /\
    (elapsed_time g' == elapsed_time g + Qsum ds)%Q /\
    win_width g' = win_width g /\ win_height g' = win_height g.
Proof.
  induction ds as [|d ds IH]; intros g s s' Hin Hgs Hfr.
  - simpl in Hfr. inversion Hfr; subst. exists g. simpl.
    repeat split; try assumption; try reflexivity. ring.
  - simpl in Hfr. unfold bind in Hfr.
    destruct (on_update E s) as [[] s1|x s1] eqn:Hup; [|discriminate].
    simpl. unfold game_on_update. rewrite Hin, Hgs, Hup.
    destruct (IH (add_time d (set_gamestate (ingame g) (Some s1) g)) s1 s')
      as (g' & Hg1 & Hg2 & Hg3 & Hg4 & Hg5 & Hg6); [exact Hin | reflexivity | exact Hfr |].
    exists g'. repeat split; try assumption.
    rewrite Hg4. simpl. ring.
Qed.

(** X21. The window, run for a number of frames from its creation: the
    first frame builds the session and already runs one update on it,
    so that [n] frames of the window amount to the constructor followed
    by [n] frames of the session; the elapsed time is the sum of the
    frame times. Key events that arrive before the first frame are
    dropped. If the constructor raises, the first frame ends in that
    exception with [ingame] already set and no session stored. *)
Theorem window_runs_the_session E fresh w h d ds :
  (forall s0 s',
     init E w h fresh = Returned tt s0 ->
     frames E (S (List.length ds)) s0 = Returned tt s' ->
     exists g,
       game_frames E fresh (d :: ds) (new_game w h) = Ran g /\
       ingame g = true /\ gamestate g = Some s' /\
       (elapsed_time g == Qsum (d :: ds))%Q) /\
  (forall e s1,
     init E w h fresh = Raised e s1 ->
     game_frames E fresh (d :: ds) (new_game w h)
     = Crashed e (set_gamestate true None (new_game w h))) /\
  (forall k, game_on_key_press E k (new_game w h) = new_game w h) /\
  (forall k, game_on_key_release k (new_game w h) = new_game w h).
Proof.
  split; [|split; [|split]]; try reflexivity.
  - intros s0 s' Hinit Hfr.
    simpl in Hfr. unfold bind in Hfr.
    destruct (on_update E s0) as [[] s1|x s1] eqn:Hup; [|discriminate].
    simpl. unfold game_on_update, start_game. simpl. rewrite Hinit. simpl.
    rewrite Hup.
    destruct (started_game_frames E fresh ds
                (add_time d (set_gamestate true (Some s1) (new_game w h))) s1 s'
                eq_refl eq_refl Hfr)
      as (g' & Hg1 & Hg2 & Hg3 & Hg4 & _).
    exists g'. repeat split; try assumption.
    rewrite Hg4. simpl. ring.
  - intros e s1 Hinit. simpl. unfold game_on_update, start_game. simpl.
    rewrite Hinit. reflexivity.
Qed.

Lemma window_runs_the_session_witness :
  (init Demo.env0 1024 768 (Demo.lemon 0 0 0 0)
     = Returned tt (state_of (init Demo.env0 1024 768 (Demo.lemon 0 0 0 0))) /\
   frames Demo.env0 2 (state_of (init Demo.env0 1024 768 (Demo.lemon 0 0 0 0)))
     = Returned tt
         (state_of (frames Demo.env0 2
                      (state_of (init Demo.env0 1024 768 (Demo.lemon 0 0 0 0)))))) /\
  exists g,
    game_frames Demo.env0 (Demo.lemon 0 0 0 0) [1 # 60; 1 # 30]%Q (new_game 1024 768)
      = Ran g /\
    ingame g = true /\
    gamestate g
      = Some (state_of (frames Demo.env0 2
                          (state_of (init Demo.env0 1024 768 (Demo.lemon 0 0 0 0))))) /\
    (elapsed_time g == Qsum [1 # 60; 1 # 30])%Q.
Proof.
  assert (H1 : init Demo.env0 1024 768 (Demo.lemon 0 0 0 0)
               = Returned tt (state_of (init Demo.env0 1024 768 (Demo.lemon 0 0 0 0))))
    by (vm_compute; reflexivity).
  assert (H2 : frames Demo.env0 2 (state_of (init Demo.env0 1024 768 (Demo.lemon 0 0 0 0)))
               = Returned tt
                   (state_of (frames Demo.env0 2
                      (state_of (init Demo.env0 1024 768 (Demo.lemon 0 0 0 0))))))
    by (vm_compute; reflexivity).
  split; [split; assumption|].
  exact (proj1 (window_runs_the_session Demo.env0 (Demo.lemon 0 0 0 0) 1024 768
                  (1 # 60)%Q [(1 # 30)%Q]) _ _ H1 H2).
Defined.


(** ** A single block *)

Lemma place_puts_one tile l b s :
  level_geometry (state_of (place tile l b s))
  ++ level_objects (state_of (place tile l b s))
  = if startswith_any (tile_name tile) ["block"; "danger"]%string
    then (level_geometry s
          ++ [{| sp_texture := tile_texture tile; sp_left := l; sp_bottom := b |}])
         ++ level_objects s
    else level_geometry s
         ++ level_objects s
         ++ [{| sp_texture := tile_texture tile; sp_left := l; sp_bottom := b |}].
Proof.
  unfold place, bind, modify, ret.
  destruct (startswith_any (tile_name tile) _);
    destruct (endswith_any (tile_name tile) _);
    try match goal with
        | |- context [cg_append ?g ?k ?sp] => destruct (cg_append g k sp)
        end;
    destruct (startswith (tile_name tile) "save");
    destruct (startswith (tile_name tile) "danger");
    destruct (startswith (tile_name tile) "level");
    destruct (endswith (tile_name tile) "start"); reflexivity.
Qed.

(** Once the image is open, the level fields that [load_level] leaves
    are those the scan leaves. *)
Lemma load_level_level_data E id img s :
  open_image E id = Some img ->
  level_data (state_of (load_level E id s))
  = level_data (state_of (scan E img (set_level_data empty_level s))).
Proof.
  intros Ho. unfold load_level. rewrite Ho.
  unfold bind at 1. unfold modify at 1. unfold bind at 1.
  destruct (scan E img (set_level_data empty_level s)) as [[] s1|e s1];
    [|reflexivity].
  unfold bind, get.
  destruct (start s1) as [st|] eqn:Hs; [|reflexivity].
  destruct (end_ s1); [|reflexivity].
  unfold move_to_start. rewrite Hs. reflexivity.
Qed.

Lemma all_sprites_level_data a b :
  level_data a = level_data b -> all_sprites a = all_sprites b.
Proof.
  intros H.
  pose proof (f_equal ld_geometry H). pose proof (f_equal ld_objects H).
  pose proof (f_equal ld_colored H). pose proof (f_equal ld_danger H).
  pose proof (f_equal ld_saves H). pose proof (f_equal ld_start H).
  pose proof (f_equal ld_end H). simpl in *.
  unfold all_sprites. congruence.
Qed.

(** X22. An image of one 3x3 block whose signature is in the catalog
    decodes to exactly one placed tile, with the catalog's texture, at
    the origin: it is the only element of [level_geometry] and
    [level_objects] taken together, and every sprite the session refers
    to afterwards is that one. *)
Theorem single_block_is_placed_at_origin E id img sig tile s :
  open_image E id = Some img ->
  img_w img = 3 -> img_h img = 3 ->
  signature img 0 2 = inr sig ->
  tiles E sig = Some tile ->
  level_geometry (state_of (load_level E id s))
  ++ level_objects (state_of (load_level E id s))
  = [{| sp_texture := tile_texture tile; sp_left := 0; sp_bottom := 0 |}] /\
  Forall (fun sp => sp = {| sp_texture := tile_texture tile;
                            sp_left := 0; sp_bottom := 0 |})
         (all_sprites (state_of (load_level E id s))).
Proof.
  intros Ho Hw Hh Hsig Ht.
  assert (Hscan : scan E img (set_level_data empty_level s)
                  = place tile 0 0 (set_level_data empty_level s)).
  { unfold scan. rewrite Hw, Hh.
    change (py_range (3 - 1) (-1) (-3)) with [2].
    change (py_range 0 3 3) with [0].
    simpl. rewrite Hsig, Ht. unfold bind, ret.
    destruct (place tile 0 0 (set_level_data empty_level s)) as [[] s1|e s1];
      reflexivity. }
  assert (Hone : level_geometry (state_of (scan E img (set_level_data empty_level s)))
                 ++ level_objects (state_of (scan E img (set_level_data empty_level s)))
                 = [{| sp_texture := tile_texture tile; sp_left := 0; sp_bottom := 0 |}]).
  { rewrite Hscan, place_puts_one. destruct (startswith_any _ _); reflexivity. }
  assert (Hall : Forall (fun sp => sp = {| sp_texture := tile_texture tile;
                                           sp_left := 0; sp_bottom := 0 |})
                   (all_sprites (state_of (scan E img (set_level_data empty_level s))))).
  { rewrite Hscan. apply Forall_forall. intros sp Hsp.
    apply (place_adds_one tile 0 0 (set_level_data empty_level s)) in Hsp.
    destruct Hsp as [<-|[]]. reflexivity. }
  pose proof (load_level_level_data E id img s Ho) as Hld.
  rewrite (all_sprites_level_data _ _ Hld).
  pose proof (f_equal ld_geometry Hld) as Hg.
  pose proof (f_equal ld_objects Hld) as Hob. simpl in Hg, Hob.
  rewrite Hg, Hob. split; assumption.
Qed.

Lemma single_block_is_placed_at_origin_witness :
  (open_image Demo.env0 3 = Some Demo.one_block /\
   img_w Demo.one_block = 3 /\ img_h Demo.one_block = 3 /\
   signature Demo.one_block 0 2 = inr "DDDDDDDDD"%string /\
   tiles Demo.env0 "DDDDDDDDD" = Some {| tile_name := "danger"; tile_texture := 3 |}) /\
  level_geometry (state_of (load_level Demo.env0 3 (Demo.at_end 7)))
  ++ level_objects (state_of (load_level Demo.env0 3 (Demo.at_end 7)))
  = [Demo.tile_at 3 0 0] /\
  danger (state_of (load_level Demo.env0 3 (Demo.at_end 7))) = [Demo.tile_at 3 0 0].
Proof.
  split; [repeat split; reflexivity|].
  split; [|vm_compute; reflexivity].
  exact (proj1 (single_block_is_placed_at_origin Demo.env0 3 Demo.one_block
                  "DDDDDDDDD" {| tile_name := "danger"; tile_texture := 3 |}
                  (Demo.at_end 7) eq_refl eq_refl eq_refl eq_refl eq_refl)).
Defined.
